(** * TarDirectory.py: the "TAR Directory" MediaHub action

    A shallow embedding of [src/TarDirectory.py].  Python strings are
    [string]; the [config] dictionary and the [vars] dictionary built from
    it are [gmap string string]; exceptions are the [Err] results of [res].

    The calls that leave the process (the confirmation dialog,
    [os.path.isdir], [os.path.isfile], [subprocess.Popen]) are answered by
    an explicit environment, and the program writes a log of the dialogs it
    opened and the processes it spawned, in order.  The environment has a
    state: every call is answered at the point of the run at which it is
    made.  The file system is read again at every call and changes, if at
    all, through the jobs the run has submitted and waited for; the user
    answers a dialog knowing everything that was asked and spawned before
    it.  The dialog is taken to return an answer; [Popen] may raise.

    The module-level [config] is read by [tardir_go] when it runs, so the
    embedding takes the dictionary as the argument [cfg]; [config] below is
    the value the module gives it.  Calls to [logger] are left out. *)

From Stdlib Require Import ZArith Lia Ascii.
From stdpp Require Import base strings gmap list pretty.

Local Open Scope Z_scope.

(** ** Exceptions *)

Inductive exn : Type :=
| ValueError
| KeyError (key : string)
| IndexError
| OverflowError
| OSError.

Inductive res (A : Type) : Type :=
| Ok (a : A)
| Err (e : exn).
Arguments Ok {A} a.
Arguments Err {A} e.

Definition res_bind {A B} (r : res A) (f : A → res B) : res B :=
  match r with
  | Ok a => f a
  | Err e => Err e
  end.

Definition res_map {A B} (f : A → B) (r : res A) : res B :=
  res_bind r (λ a, Ok (f a)).

(** ** The [str] methods the script calls *)

Module Str.

Definition len (s : string) : Z := Z.of_nat (String.length s).

(** [s.startswith(old)] *)
Fixpoint startswith (s old : string) {struct old} : bool :=
  match old with
  | "" => true
  | String a old' =>
      match s with
      | "" => false
      | String b s' => Ascii.eqb a b && startswith s' old'
      end
  end.

Fixpoint take (n : nat) (s : string) : string :=
  match n, s with
  | S n', String c s' => String c (take n' s')
  | _, _ => ""
  end.

Fixpoint drop (n : nat) (s : string) : string :=
  match n, s with
  | S n', String _ s' => drop n' s'
  | _, _ => s
  end.

(** Slice bounds: a negative index counts from the end, and both ends
    are clamped to the string. *)
Definition bound (s : string) (i : Z) : nat :=
  if i <? 0 then Z.to_nat (len s + i) else Z.to_nat i.

(** [s[:i]] *)
Definition slice_to (s : string) (i : Z) : string := take (bound s i) s.

(** [s[i:]] *)
Definition slice_from (s : string) (i : Z) : string := drop (bound s i) s.

(** [s.rfind(old)]: the highest index at which [old] starts, or [-1]. *)
Fixpoint rfind (s old : string) : Z :=
  match s with
  | "" => if startswith "" old then 0 else -1
  | String _ s' =>
      let r := rfind s' old in
      if 0 <=? r then r + 1
      else if startswith s old then 0 else -1
  end.

(** [s.rsplit(sep, maxsplit)] for a string [sep]: splits are made from
    the right, at most [maxsplit] of them ([maxsplit < 0]: no limit).
    [maxsplit] is converted to a C [ssize_t] when the arguments are read:
    outside [-2**63 .. 2**63 - 1] that is an [OverflowError], raised
    before the separator is looked at; an empty separator is a
    [ValueError]. *)
Fixpoint rsplit_go (s sep : string) (n : nat) : list string :=
  match n with
  | O => [s]
  | S n' =>
      let i := rfind s sep in
      if i <? 0 then [s]
      else rsplit_go (slice_to s i) sep n' ++ [slice_from s (i + len sep)]
  end.

Definition ssize_t_min : Z := -9223372036854775808.
Definition ssize_t_max : Z := 9223372036854775807.

Definition rsplit (s sep : string) (maxsplit : Z) : res (list string) :=
  if (maxsplit <? ssize_t_min) || (ssize_t_max <? maxsplit)
  then Err OverflowError
  else
    match sep with
    | "" => Err ValueError
    | _ =>
        Ok (rsplit_go s sep
              (if maxsplit <? 0 then String.length s else Z.to_nat maxsplit))
    end.

(** [sep.join(l)] *)
Fixpoint join (sep : string) (l : list string) : string :=
  match l with
  | [] => ""
  | [x] => x
  | x :: l' => x +:+ sep +:+ join sep l'
  end.

Fixpoint contains_char (chars : string) (c : ascii) : bool :=
  match chars with
  | "" => false
  | String a chars' => Ascii.eqb a c || contains_char chars' c
  end.

(** [s.rstrip(chars)]: drops the longest suffix made of characters of
    [chars]. *)
Fixpoint rstrip (s chars : string) : string :=
  match s with
  | "" => ""
  | String c s' =>
      match rstrip s' chars with
      | "" => if contains_char chars c then "" else String c ""
      | r => String c r
      end
  end.

(** [s * n] *)
Fixpoint repeat (s : string) (n : nat) : string :=
  match n with
  | O => ""
  | S n' => s +:+ repeat s n'
  end.

(** [s + c] for a single character [c]. *)
Fixpoint snoc (s : string) (c : ascii) : string :=
  match s with
  | "" => String c ""
  | String a s' => String a (snoc s' c)
  end.

(** [s.format] with positional [args] and keyword [kwargs], for the replacement fields the script
    uses: literal text, the escapes [{{] and [}}], the auto-numbered
    field [{}] and keyword fields [{NAME}].  [field] is [Some name]
    while the scan is inside a replacement field, [auto] is the index
    the next [{}] takes.  Substituted values are not scanned again. *)
Fixpoint format_go (args : list string) (kwargs : gmap string string)
    (s : string) (field : option string) (auto : nat) : res string :=
  match s with
  | "" =>
      match field with
      | None => Ok ""
      | Some _ => Err ValueError
      end
  | String c s' =>
      match field with
      | None =>
          if Ascii.eqb c "{" then
            match s' with
            | String c' s'' =>
                if Ascii.eqb c' "{"
                then res_map (String "{") (format_go args kwargs s'' None auto)
                else format_go args kwargs s' (Some "") auto
            | "" => Err ValueError
            end
          else if Ascii.eqb c "}" then
            match s' with
            | String c' s'' =>
                if Ascii.eqb c' "}"
                then res_map (String "}") (format_go args kwargs s'' None auto)
                else Err ValueError
            | "" => Err ValueError
            end
          else res_map (String c) (format_go args kwargs s' None auto)
      | Some name =>
          if Ascii.eqb c "}" then
            match name with
            | "" =>
                match args !! auto with
                | Some v =>
                    res_map (String.app v)
                      (format_go args kwargs s' None (S auto))
                | None => Err IndexError
                end
            | _ =>
                match kwargs !! name with
                | Some v =>
                    res_map (String.app v)
                      (format_go args kwargs s' None auto)
                | None => Err (KeyError name)
                end
            end
          else format_go args kwargs s' (Some (snoc name c)) auto
      end
  end.

Definition format (s : string) (args : list string)
    (kwargs : gmap string string) : res string :=
  format_go args kwargs s None 0.

End Str.

(** ** [os.path] (POSIX flavour) *)

Module OsPath.

(** [posixpath.basename]: [i = p.rfind('/') + 1; return p[i:]] *)
Definition basename (p : string) : string :=
  let i := Str.rfind p "/" + 1 in
  Str.slice_from p i.

(** [posixpath.dirname]: the part before the last slash, without its
    trailing slashes unless it consists of slashes only. *)
Definition dirname (p : string) : string :=
  let i := Str.rfind p "/" + 1 in
  let head := Str.slice_to p i in
  if bool_decide (head ≠ "")
     && bool_decide (head ≠ Str.repeat "/" (String.length head))
  then Str.rstrip head "/"
  else head.

End OsPath.

(** ** Path rewriting *)

(** [rreplace]: replace in [s] the rightmost [count] occurrences of [old]
    with [new]. *)
Definition rreplace (s old new : string) (count : Z) : res string :=
  res_map (Str.join new) (Str.rsplit s old count).

Definition get_dest_path (srcpath : string) : res string :=
  let destpath := srcpath in
  let found := Str.rfind destpath "_xyz/" in
  if 0 <=? found then rreplace destpath "_xyz/" "_dcdm/" 1
  else Ok destpath.

(** ** The environment and the log *)

Inductive event : Type :=
| EPrompt (msg title : string)
| EPopen (cmdline : list string).

(** The command lines of the processes in a log, in order. *)
Definition popen_calls (log : list event) : list (list string) :=
  omap (λ e, match e with EPopen cmdline => Some cmdline | _ => None end) log.

(** What the script asks of the outside world.  The first argument of
    each field is the list of the jobs of this run that have been spawned
    and waited for when the call is made, oldest first: a job may create
    or remove files, so the same question can get another answer after it.
    [popen jobs cmdline] is [subprocess.Popen(cmdline).wait()]: the return
    code of the process, or the exception [Popen] raises when it cannot
    start it. *)
Record World : Type := {
  isdir : list (list string) → string → bool;
  isfile : list (list string) → string → bool;
  popen : list (list string) → list string → res Z
}.

(** The type of the [prompt] argument: from the log of the run when the
    dialog opens, its message and its title to the answer. *)
Definition Prompt : Type := list event → string → string → bool.

(** The outcome of a computation: the log it wrote and the value it
    returned or the exception it raised. *)
Inductive M (A : Type) : Type :=
| Run (log : list event) (r : res A).
Arguments Run {A} log r.

Definition log_of {A} (m : M A) : list event :=
  match m with Run l _ => l end.

Definition res_of {A} (m : M A) : res A :=
  match m with Run _ r => r end.

(** A computation started when the log of the run is [h] writes what it
    adds to the log. *)
Definition Prog (A : Type) : Type := list event → M A.

#[global] Instance Prog_ret : MRet Prog := λ A a h, Run [] (Ok a).

#[global] Instance Prog_bind : MBind Prog := λ A B f m h,
  match m h with
  | Run l (Ok a) => match f a (h ++ l) with Run l' r => Run (l ++ l') r end
  | Run l (Err e) => Run l (Err e)
  end.

Definition lift {A} (r : res A) : Prog A := λ h, Run [] r.

Definition os_path_isdir (w : World) (p : string) : Prog bool :=
  λ h, Run [] (Ok (isdir w (popen_calls h) p)).

Definition os_path_isfile (w : World) (p : string) : Prog bool :=
  λ h, Run [] (Ok (isfile w (popen_calls h) p)).

Definition ask (prompt : Prompt) (msg title : string) : Prog bool :=
  λ h, Run [EPrompt msg title] (Ok (prompt h msg title)).

Definition spawn (w : World) (cmdline : list string) : Prog Z :=
  λ h, Run [EPopen cmdline] (popen w (popen_calls h) cmdline).

(** ** The plugin *)

Definition config : gmap string string :=
  list_to_map [
    ("BBMANAGER", "manager");
    ("BBGROUP", "TARNODES");
    ("PRIORITY", "30");
    ("CMDJOB", "/opt/Autodesk/backburner/cmdjob")
  ].

(** A selected entry of the media browser. *)
Record PathItem : Type := { path : string }.

(** [menu_enabled] spawns nothing: it reads the file system as it is
    before any job. *)
Definition menu_enabled (w : World) (sel : list PathItem) : bool :=
  foldl (λ is_enabled item,
           if isdir w [] (path item) then true else is_enabled)
        false sel.

(** What [tardir_go] returns: nothing (the user cancelled), the command
    line of the first processed item (test mode), or the return codes. *)
Inductive result : Type :=
| RNone
| RCmdline (cmdline : list string)
| RCodes (returncodes : list Z).

Definition cmdline_template : list string := [
  "{CMDJOB}";
  "-manager:{BBMANAGER}";
  "-group:{BBGROUP}";
  "-priority:{PRIORITY}";
  "-jobName"; "{JOBNAME}";
  "-userRights";
  "-description"; "TAR + List file";
  "sh"; "-c";
  "/usr/bin/tar -cf {TARNAME}.tar -C {PARENTDIR} {BASENAME} ; "
    +:+ " tar -tvf {TARNAME}.tar | sort > {TARNAME}.tar.list"
].

(** [[x.format( **vars ) for x in cmdline]] *)
Fixpoint format_each (cmdline : list string) (vars : gmap string string)
    : res (list string) :=
  match cmdline with
  | [] => Ok []
  | x :: rest =>
      res_bind (Str.format x [] vars) (λ y,
        res_map (cons y) (format_each rest vars))
  end.

(** The [for curitem in sel] loop; [returncodes] is the list built so
    far. *)
Fixpoint tardir_loop (w : World) (cfg : gmap string string)
    (prompt : Prompt) (test_mode : bool) (sel : list PathItem)
    (returncodes : list Z) : Prog result :=
  match sel with
  | [] => mret (RCodes returncodes)
  | curitem :: rest =>
      is_dir ← os_path_isdir w (path curitem);
      if negb is_dir then
        tardir_loop w cfg prompt test_mode rest returncodes
      else
        let path := Str.rstrip (path curitem) "/" in
        let archive_path := path +:+ ".tar" in
        is_file ← os_path_isfile w archive_path;
        skip ← (if (is_file : bool)
                then ok ← ask prompt ("Overwrite " +:+ archive_path +:+ " ?")
                                     (archive_path +:+ " exists");
                     mret (negb ok)
                else mret false);
        if (skip : bool) then
          tardir_loop w cfg prompt test_mode rest returncodes
        else
          destpath ← lift (get_dest_path path);
          let vars := cfg in
          let vars := <["TARNAME" := destpath]> vars in
          let vars := <["BASENAME" := OsPath.basename path]> vars in
          let vars := <["JOBNAME" := OsPath.basename path +:+ " DCDM"]> vars in
          let vars := <["PARENTDIR" := OsPath.dirname path]> vars in
          cmdline ← lift (format_each cmdline_template vars);
          if test_mode then mret (RCmdline cmdline)
          else
            rc ← spawn w cmdline;
            tardir_loop w cfg prompt test_mode rest (returncodes ++ [rc])
  end.

(** The body of [tardir_go(sel, prompt, test_mode)], with the module's
    [config] as [cfg].  The [try ... except Exception] around it logs and
    raises the exception again, so it does not change the outcome. *)
Definition tardir_go_body (w : World) (cfg : gmap string string)
    (sel : list PathItem) (prompt : Prompt) (test_mode : bool)
    : Prog result :=
  let n := pretty (length sel) in
  let plural := if bool_decide (1 < length sel)%nat then "s" else "" in
  msg ← lift (Str.format "{} folder{} selected for TAR; OK?" [n; plural] ∅);
  title ← lift (Str.format "tarring {} folder{}" [n; plural] ∅);
  ok ← ask prompt msg title;
  if negb ok then mret RNone
  else tardir_loop w cfg prompt test_mode sel [].

(** A call of [tardir_go]: the run starts with an empty log. *)
Definition tardir_go (w : World) (cfg : gmap string string)
    (sel : list PathItem) (prompt : Prompt) (test_mode : bool) : M result :=
  tardir_go_body w cfg sel prompt test_mode [].

(** ** Vocabulary of the statements *)

(** What the loop body computes between the overwrite question and the
    process: from the selected path to the formatted command line. *)
Definition make_cmdline (cfg : gmap string string) (item_path : string)
    : res (list string) :=
  let path := Str.rstrip item_path "/" in
  res_bind (get_dest_path path) (λ destpath,
    let vars := cfg in
    let vars := <["TARNAME" := destpath]> vars in
    let vars := <["BASENAME" := OsPath.basename path]> vars in
    let vars := <["JOBNAME" := OsPath.basename path +:+ " DCDM"]> vars in
    let vars := <["PARENTDIR" := OsPath.dirname path]> vars in
    format_each cmdline_template vars).

(** [old] occurs in [s] (Python's [old in s]). *)
Definition occurs (old s : string) : Prop := ∃ a b, s = a +:+ old +:+ b.

(** The path has a component that ends in [_xyz]. *)
Definition has_xyz_component (p : string) : Prop :=
  ∃ a b, p = a +:+ "_xyz" +:+ b ∧ (b = "" ∨ ∃ b', b = "/" +:+ b').

(** The naming convention as the specification words it: a path with an
    [_xyz] component comes back with [_xyz] rewritten to [_dcdm], any other
    path comes back unchanged. *)
Definition dest_path_as_specified (p : string) : Prop :=
  (has_xyz_component p →
   ∃ a b, p = a +:+ "_xyz" +:+ b
          ∧ get_dest_path p = Ok (a +:+ "_dcdm" +:+ b))
  ∧ (¬ has_xyz_component p → get_dest_path p = Ok p).

(** The text of the two dialogs. *)
Definition plural (sel : list PathItem) : string :=
  if bool_decide (1 < length sel)%nat then "s" else "".

Definition confirm_msg (sel : list PathItem) : string :=
  pretty (length sel) +:+ " folder" +:+ plural sel +:+ " selected for TAR; OK?".

Definition confirm_title (sel : list PathItem) : string :=
  "tarring " +:+ pretty (length sel) +:+ " folder" +:+ plural sel.

Definition overwrite_msg (archive_path : string) : string :=
  "Overwrite " +:+ archive_path +:+ " ?".

Definition overwrite_title (archive_path : string) : string :=
  archive_path +:+ " exists".

(** The shell text handed to [sh -c]: archive [basename] from inside
    [parentdir] into [tarname.tar], then list that archive, sorted, into
    [tarname.tar.list]. *)
Definition shell_text (tarname parentdir basename : string) : string :=
  "/usr/bin/tar -cf " +:+ tarname +:+ ".tar -C " +:+ parentdir +:+ " "
  +:+ basename +:+ " ;  tar -tvf " +:+ tarname +:+ ".tar | sort > "
  +:+ tarname +:+ ".tar.list".

(** The command line the template gives once its fields are filled in:
    the four values of the configuration, the literal arguments, and the
    three values computed from the selected path. *)
Definition filled_template
    (cmdjob manager group priority tarname parentdir basename : string)
    : list string := [
  cmdjob;
  "-manager:" +:+ manager;
  "-group:" +:+ group;
  "-priority:" +:+ priority;
  "-jobName"; basename +:+ " DCDM";
  "-userRights";
  "-description"; "TAR + List file";
  "sh"; "-c";
  "/usr/bin/tar -cf " +:+ tarname +:+ ".tar -C " +:+ parentdir +:+ " "
  +:+ basename +:+ " ;  tar -tvf " +:+ tarname +:+ ".tar | sort > "
  +:+ tarname +:+ ".tar.list"
].

(** The archive whose existence the loop body checks for an item. *)
Definition archive_path (item : PathItem) : string :=
  Str.rstrip (path item) "/" +:+ ".tar".

(** The turn of an item starts when the log of the run is [h].  The item
    is processed when it is a directory then and, if its archive exists
    then, the user agrees to overwrite it. *)
Definition processed (w : World) (prompt : Prompt) (h : list event)
    (item : PathItem) : bool :=
  isdir w (popen_calls h) (path item)
  && (negb (isfile w (popen_calls h) (archive_path item))
      || prompt h (overwrite_msg (archive_path item))
                  (overwrite_title (archive_path item))).

(** The overwrite question of an item, when the loop body asks it. *)
Definition ask_events (w : World) (h : list event) (item : PathItem)
    : list event :=
  if isdir w (popen_calls h) (path item)
     && isfile w (popen_calls h) (archive_path item)
  then [EPrompt (overwrite_msg (archive_path item))
                (overwrite_title (archive_path item))]
  else [].

(** What the turn of an item adds to the log of a run that goes on: the
    overwrite question when it is a directory whose archive exists, then
    the process spawned for it when it is processed. *)
Definition item_events (w : World) (cfg : gmap string string)
    (prompt : Prompt) (h : list event) (item : PathItem) : list event :=
  ask_events w h item
  ++ (if processed w prompt h item
      then match make_cmdline cfg (path item) with
           | Ok cmdline => [EPopen cmdline]
           | Err _ => []
           end
      else []).

(** The turns of the items of [sel], one after the other, in a run that
    goes on from the log [h]: every turn starts with the log the turns
    before it have left. *)
Fixpoint turns (w : World) (cfg : gmap string string) (prompt : Prompt)
    (h : list event) (sel : list PathItem) : list (list event) :=
  match sel with
  | [] => []
  | item :: rest =>
      let turn := item_events w cfg prompt h item in
      turn :: turns w cfg prompt (h ++ turn) rest
  end.

(** The first item of [sel] that is processed when nothing is spawned:
    the turns before it leave their overwrite questions in the log. *)
Fixpoint first_processed (w : World) (prompt : Prompt) (h : list event)
    (sel : list PathItem) : option PathItem :=
  match sel with
  | [] => None
  | item :: rest =>
      if processed w prompt h item then Some item
      else first_processed w prompt (h ++ ask_events w h item) rest
  end.

(** A computation with [pre] logged before it. *)
Definition prepend {A} (pre : list event) (m : M A) : M A :=
  match m with Run l r => Run (pre ++ l) r end.


(** ** The world of the repository's test

    [test_tar] creates these directories under [/tmp] (a directory is
    one with a trailing slash too), answers every dialog with yes and
    expects the job submission to return.  In this world the jobs leave
    the file system as it is (the job queue is not reached). *)
Definition test_world : World := {|
  isdir jobs p := bool_decide (p ∈ ["/tmp/foo"; "/tmp/foo/"; "/tmp/foo/bar";
                                    "/tmp/foo_xyz"; "/tmp/foo_xyz/sub";
                                    "/tmp/foo_xyz/sub/sub2"; "/tmp/foo_dcdm"]);
  isfile jobs p := false;
  popen jobs cmdline := Ok 0
|}.

Definition fake_askyesno : Prompt := λ log msg title, true.

(** A user who cancels every dialog. *)
Definition cancel_all : Prompt := λ log msg title, false.

(** The claim C3 as the specification words it: every selected item goes
    through to the execution of the command formatted for it. *)
Definition every_item_executed (w : World) (cfg : gmap string string)
    (sel : list PathItem) (prompt : Prompt) : Prop :=
  ∀ item, item ∈ sel →
    ∃ cmdline, make_cmdline cfg (path item) = Ok cmdline
      ∧ EPopen cmdline ∈ log_of (tardir_go w cfg sel prompt false).

(** The command line [test_tar] expects for [/tmp/foo_xyz/sub]. *)
Definition sub_cmdline : list string := [
  "/opt/Autodesk/backburner/cmdjob"; "-manager:manager"; "-group:TARNODES";
  "-priority:30"; "-jobName"; "sub DCDM"; "-userRights";
  "-description"; "TAR + List file"; "sh"; "-c";
  "/usr/bin/tar -cf /tmp/foo_dcdm/sub.tar -C /tmp/foo_xyz sub ;  tar -tvf /tmp/foo_dcdm/sub.tar | sort > /tmp/foo_dcdm/sub.tar.list"
].

(** The command line for [/tmp/foo]. *)
Definition foo_cmdline : list string := [
  "/opt/Autodesk/backburner/cmdjob"; "-manager:manager"; "-group:TARNODES";
  "-priority:30"; "-jobName"; "foo DCDM"; "-userRights";
  "-description"; "TAR + List file"; "sh"; "-c";
  "/usr/bin/tar -cf /tmp/foo.tar -C /tmp foo ;  tar -tvf /tmp/foo.tar | sort > /tmp/foo.tar.list"
].

(** The command line for [/tmp/foo_dcdm/sub]. *)
Definition dcdm_sub_cmdline : list string := [
  "/opt/Autodesk/backburner/cmdjob"; "-manager:manager"; "-group:TARNODES";
  "-priority:30"; "-jobName"; "sub DCDM"; "-userRights";
  "-description"; "TAR + List file"; "sh"; "-c";
  "/usr/bin/tar -cf /tmp/foo_dcdm/sub.tar -C /tmp/foo_dcdm sub ;  tar -tvf /tmp/foo_dcdm/sub.tar | sort > /tmp/foo_dcdm/sub.tar.list"
].

(** The command line for [/tmp/my dir]. *)
Definition my_dir_cmdline : list string := [
  "/opt/Autodesk/backburner/cmdjob"; "-manager:manager"; "-group:TARNODES";
  "-priority:30"; "-jobName"; "my dir DCDM"; "-userRights";
  "-description"; "TAR + List file"; "sh"; "-c";
  "/usr/bin/tar -cf /tmp/my dir.tar -C /tmp my dir ;  tar -tvf /tmp/my dir.tar | sort > /tmp/my dir.tar.list"
].

(** ** A world in which the jobs run

    A job whose shell text starts with [/usr/bin/tar -cf p ] writes the
    file [p].  In [tar_world dirs] the directories are [dirs], no archive
    exists before the run, and every job has written its archive when
    [wait] returns 0. *)
Definition writes (p : string) (cmdline : list string) : bool :=
  match cmdline !! 11%nat with
  | Some text => Str.startswith text ("/usr/bin/tar -cf " +:+ p +:+ " ")
  | None => false
  end.

Definition tar_world (dirs : list string) : World := {|
  isdir jobs p := bool_decide (p ∈ dirs);
  isfile jobs p := existsb (writes p) jobs;
  popen jobs cmdline := Ok 0
|}.

(** A tree in which the [_dcdm] directory already has the sub-directory
    of the [_xyz] one. *)
Definition dcdm_world : World :=
  tar_world ["/tmp/foo_xyz/sub"; "/tmp/foo_dcdm/sub"].

(** A tree in which the archive of [/tmp/foo_xyz/sub] already exists next
    to it. *)
Definition archive_world : World := {|
  isdir jobs p := bool_decide (p ∈ ["/tmp/foo_xyz/sub"; "/tmp/foo_xyz/sub/"]);
  isfile jobs p := bool_decide (p = "/tmp/foo_xyz/sub.tar");
  popen jobs cmdline := Ok 0
|}.

(** ** The dialog and the hook *)

(** The button a [QMessageBox] with the buttons Yes and Cancel is closed
    with. *)
Inductive StandardButton : Type :=
| Yes
| Cancel.

(** [ask_yesno]: [exec log title text] is the button the user closes the
    box titled [title] and showing [text] with, the log of the run being
    [log] when the box opens; everything but Cancel is a yes. *)
Definition ask_yesno (exec : list event → string → string → StandardButton)
    : Prompt :=
  λ log dlg_msg dlg_title,
    match exec log dlg_title dlg_msg with
    | Cancel => false
    | _ => true
    end.

(** An entry of the context menu: the dictionary with the keys [name],
    [isEnabled] and [execute]. *)
Record Action : Type := {
  action_name : string;
  isEnabled : World → list PathItem → bool;
  execute : World → gmap string string → list PathItem → Prompt → bool
            → M result
}.

(** A submenu: the dictionary with the keys [name] and [actions]. *)
Record Menu : Type := {
  menu_name : string;
  actions : list Action
}.

Definition get_mediahub_files_custom_ui_actions : list Menu := [
  {| menu_name := "Directory Tools";
     actions := [
       {| action_name := "TAR Directory";
          isEnabled := menu_enabled;
          execute := tardir_go |}
     ] |}
].

(** ** More vocabulary *)

(** The first of the four configuration keys of the template, in the
    order of the template, that [cfg] does not have. *)
Definition first_missing (cfg : gmap string string) : option string :=
  List.find (λ k, bool_decide (cfg !! k = None))
            ["CMDJOB"; "BBMANAGER"; "BBGROUP"; "PRIORITY"].

(** A world in which the job submission tool cannot be started. *)
Definition no_cmdjob_world : World := {|
  isdir jobs p := bool_decide (p ∈ ["/tmp/foo"; "/tmp/foo_xyz/sub"]);
  isfile jobs p := bool_decide (p = "/tmp/foo.tar");
  popen jobs cmdline := Err OSError
|}.

(** A user who agrees to the run and declines every overwrite. *)
Definition keep_archives : Prompt :=
  λ log msg title, negb (Str.startswith msg "Overwrite ").

(** The log of a run on [sel] that goes on, when the turn of its [i]-th
    item starts: the confirmation and the turns of the items before
    it. *)
Definition log_before (w : World) (cfg : gmap string string)
    (prompt : Prompt) (sel : list PathItem) (i : nat) : list event :=
  let start := [EPrompt (confirm_msg sel) (confirm_title sel)] in
  start ++ concat (take i (turns w cfg prompt start sel)).
(** * Properties *)

(** ** Strings *)

Section string_facts.

Implicit Types s a b old : string.

Lemma str_app_nil_l s : "" +:+ s = s.
Proof. reflexivity. Qed.

Lemma str_app_cons c a b : String c a +:+ b = String c (a +:+ b).
Proof. reflexivity. Qed.

Lemma str_app_nil_r s : s +:+ "" = s.
Proof. induction s as [|c s IH]; [done|]. by rewrite str_app_cons, IH. Qed.

Lemma str_app_assoc a b s : (a +:+ b) +:+ s = a +:+ (b +:+ s).
Proof. induction a as [|c a IH]; [done|]. by rewrite !str_app_cons, IH. Qed.

Lemma str_length_app a b :
  String.length (a +:+ b) = (String.length a + String.length b)%nat.
Proof. induction a as [|c a IH]; [done|]. rewrite str_app_cons. simpl. by rewrite IH. Qed.

Lemma str_take_drop n s : Str.take n s +:+ Str.drop n s = s.
Proof.
  revert s. induction n as [|n IH]; intros [|c s]; try done.
  simpl. by rewrite str_app_cons, IH.
Qed.

Lemma str_take_app a b : Str.take (String.length a) (a +:+ b) = a.
Proof.
  induction a as [|c a IH]; [by destruct b|].
  rewrite str_app_cons. simpl. by rewrite IH.
Qed.

Lemma str_drop_app a b : Str.drop (String.length a) (a +:+ b) = b.
Proof. induction a as [|c a IH]; [by destruct b|]. by rewrite str_app_cons. Qed.

Lemma startswith_app old b : Str.startswith (old +:+ b) old = true.
Proof.
  induction old as [|c old IH]; [done|].
  rewrite str_app_cons. simpl. by rewrite Ascii.eqb_refl, IH.
Qed.

Lemma startswith_inv s old :
  Str.startswith s old = true → s = old +:+ Str.drop (String.length old) s.
Proof.
  revert s. induction old as [|c old IH]; intros s H.
  - by destruct s.
  - destruct s as [|c' s]; [done|]. simpl in H.
    apply andb_true_iff in H as [Hc H]. apply Ascii.eqb_eq in Hc as ->.
    rewrite str_app_cons. simpl. by rewrite <-IH.
Qed.

Lemma str_drop_app_add a n s :
  Str.drop (String.length a + n) (a +:+ s) = Str.drop n s.
Proof. induction a as [|c a IH]; [done|]. by rewrite str_app_cons. Qed.

End string_facts.


Section rfind_facts.

Implicit Types s a b old new : string.

Lemma rfind_lower s old : -1 ≤ Str.rfind s old.
Proof.
  induction s as [|c s IH]; simpl.
  - destruct (Str.startswith _ _); lia.
  - destruct (Z.leb_spec 0 (Str.rfind s old)); [lia|].
    destruct (Str.startswith _ _); lia.
Qed.

Lemma rfind_occurs s old : 0 ≤ Str.rfind s old ↔ occurs old s.
Proof.
  induction s as [|c s IH]; simpl.
  - destruct old as [|c' old]; simpl.
    + split; [|lia]. intros _. by exists "", "".
    + split; [lia|]. intros ([|??] & b & H); discriminate H.
  - destruct (Z.leb_spec 0 (Str.rfind s old)) as [Hr|Hr].
    + split; [|lia]. intros _. apply IH in Hr as (a & b & ->).
      by exists (String c a), b.
    + destruct (Str.startswith (String c s) old) eqn:Hsw.
      * split; [|lia]. intros _. apply startswith_inv in Hsw.
        by exists "", (Str.drop (String.length old) (String c s)).
      * split; [lia|]. intros ([|c' a] & b & H).
        -- rewrite str_app_nil_l in H. rewrite H, startswith_app in Hsw. done.
        -- rewrite str_app_cons in H. injection H as -> ->.
           assert (occurs old (a +:+ old +:+ b)) as Hocc by by exists a, b.
           apply IH in Hocc. lia.
Qed.

Lemma rfind_absent s old : ¬ occurs old s → Str.rfind s old = -1.
Proof.
  intros H. pose proof (rfind_lower s old).
  destruct (Z.leb_spec 0 (Str.rfind s old)) as [Hr|Hr]; [|lia].
  by apply rfind_occurs in Hr.
Qed.

(** At a non-negative result, [old] starts at that index. *)
Lemma rfind_decompose s old :
  0 ≤ Str.rfind s old →
  let i := Z.to_nat (Str.rfind s old) in
  s = Str.take i s +:+ old +:+ Str.drop (i + String.length old) s.
Proof.
  induction s as [|c s IH]; simpl.
  - destruct old; simpl; [done|lia].
  - destruct (Z.leb_spec 0 (Str.rfind s old)) as [Hr|Hr]; intros H.
    + rewrite Z2Nat.inj_add by lia. rewrite Nat.add_comm. simpl.
      rewrite str_app_cons. f_equal. by apply IH.
    + destruct (Str.startswith (String c s) old) eqn:Hsw; [|lia].
      simpl. rewrite str_app_nil_l. by apply startswith_inv.
Qed.

(** The result is the start of the last occurrence. *)
Lemma rfind_rightmost a old b :
  old ≠ "" →
  ¬ occurs old (Str.drop 1 (old +:+ b)) →
  Str.rfind (a +:+ old +:+ b) old = Str.len a.
Proof.
  intros Hne Hlast. induction a as [|c a IH].
  - rewrite str_app_nil_l. destruct old as [|c old]; [done|].
    rewrite str_app_cons in *. simpl in *.
    rewrite (rfind_absent _ _ Hlast). simpl.
    by rewrite Ascii.eqb_refl, startswith_app.
  - rewrite str_app_cons. simpl. rewrite IH. unfold Str.len.
    destruct (Z.leb_spec 0 (Z.of_nat (String.length a))); simpl; lia.
Qed.

Lemma rfind_cons_absent c s old :
  Str.rfind s old = -1 →
  Str.startswith (String c s) old = false →
  Str.rfind (String c s) old = -1.
Proof. intros Hr Hsw. simpl in *. by rewrite Hr, Hsw. Qed.

Lemma bound_nonneg s i : 0 ≤ i → Str.bound s i = Z.to_nat i.
Proof. intros. unfold Str.bound. by destruct (Z.ltb_spec i 0); [lia|]. Qed.

Lemma rreplace_absent s old new :
  old ≠ "" → Str.rfind s old = -1 → rreplace s old new 1 = Ok s.
Proof.
  intros Hne Hr. unfold rreplace, Str.rsplit. destruct old; [done|].
  change (Z.to_nat 1) with 1%nat.
  cbn [Z.ltb Z.compare orb Str.rsplit_go res_map res_bind Str.join
       Str.ssize_t_min Str.ssize_t_max].
  by rewrite Hr.
Qed.

Lemma rreplace_last s old new :
  old ≠ "" →
  0 ≤ Str.rfind s old →
  let i := Z.to_nat (Str.rfind s old) in
  rreplace s old new 1
  = Ok (Str.take i s +:+ new +:+ Str.drop (i + String.length old) s).
Proof.
  intros Hne Hr. unfold rreplace, Str.rsplit. destruct old as [|c old]; [done|].
  change (Z.to_nat 1) with 1%nat.
  cbn [Z.ltb Z.compare orb Str.rsplit_go Str.ssize_t_min Str.ssize_t_max].
  destruct (Z.ltb_spec (Str.rfind s (String c old)) 0); [lia|].
  unfold Str.slice_to, Str.slice_from, Str.len.
  rewrite !bound_nonneg by lia. rewrite Z2Nat.inj_add by lia.
  by rewrite Nat2Z.id.
Qed.

End rfind_facts.
(** ** [get_dest_path] *)

Lemma xyz_tail_absent b :
  ¬ occurs "_xyz/" b → ¬ occurs "_xyz/" (Str.drop 1 ("_xyz/" +:+ b)).
Proof.
  intros Hb Hocc. apply rfind_occurs in Hocc.
  change (Str.drop 1 ("_xyz/" +:+ b)) with (String "x" (String "y" (String "z" (String "/" b)))) in Hocc.
  rewrite (rfind_cons_absent "x") in Hocc; [lia| |done].
  do 3 (apply rfind_cons_absent; [|done]). by apply rfind_absent.
Qed.

Lemma get_dest_path_absent p :
  ¬ occurs "_xyz/" p → get_dest_path p = Ok p.
Proof.
  intros H. unfold get_dest_path. by rewrite (rfind_absent _ _ H).
Qed.

Lemma get_dest_path_last a b :
  ¬ occurs "_xyz/" b →
  get_dest_path (a +:+ "_xyz/" +:+ b) = Ok (a +:+ "_dcdm/" +:+ b).
Proof.
  intros Hb. unfold get_dest_path.
  assert (Str.rfind (a +:+ "_xyz/" +:+ b) "_xyz/" = Str.len a) as Hr.
  { apply rfind_rightmost; [done|by apply xyz_tail_absent]. }
  rewrite Hr. unfold Str.len at 1.
  destruct (Z.leb_spec 0 (Z.of_nat (String.length a))); [|lia].
  rewrite rreplace_last by (done || (rewrite Hr; unfold Str.len; lia)).
  rewrite Hr. unfold Str.len. rewrite Nat2Z.id.
  rewrite str_take_app.
  by rewrite str_drop_app_add.
Qed.

(** [get_dest_path] never raises. *)
Lemma get_dest_path_total p : ∃ d, get_dest_path p = Ok d.
Proof.
  unfold get_dest_path, rreplace, Str.rsplit.
  destruct (0 <=? _); [|by eexists].
  cbn [Z.ltb Z.compare orb Str.ssize_t_min Str.ssize_t_max res_map res_bind].
  by eexists.
Qed.


(** A path with an occurrence is rewritten at one of them. *)
Lemma get_dest_path_present p :
  occurs "_xyz/" p →
  ∃ a b, p = a +:+ "_xyz/" +:+ b
         ∧ get_dest_path p = Ok (a +:+ "_dcdm/" +:+ b).
Proof.
  intros Hocc. apply rfind_occurs in Hocc. unfold get_dest_path.
  destruct (Z.leb_spec 0 (Str.rfind p "_xyz/")); [|lia].
  rewrite rreplace_last by done.
  eexists _, _. split; [|done]. by apply rfind_decompose.
Qed.

Lemma get_dest_path_present_length p d :
  occurs "_xyz/" p → get_dest_path p = Ok d →
  String.length d = S (String.length p).
Proof.
  intros (a & b & Hp & Hd)%get_dest_path_present Hd'.
  rewrite Hd in Hd'. injection Hd' as <-.
  rewrite Hp, !str_length_app. simpl. lia.
Qed.

Example get_dest_path_plain :
  get_dest_path "/tmp/foo" = Ok "/tmp/foo".
Proof. reflexivity. Qed.

Example get_dest_path_sub :
  get_dest_path "/tmp/foo_xyz/sub/sub2" = Ok "/tmp/foo_dcdm/sub/sub2".
Proof. reflexivity. Qed.

(** Only the last [_xyz/] is rewritten. *)
Example get_dest_path_twice :
  get_dest_path "/a_xyz/b_xyz/c" = Ok "/a_xyz/b_dcdm/c".
Proof. reflexivity. Qed.

Example basename_dirname_sub :
  OsPath.basename "/tmp/foo_xyz/sub" = "sub"
  ∧ OsPath.dirname "/tmp/foo_xyz/sub" = "/tmp/foo_xyz"
  ∧ OsPath.dirname "/foo" = "/" ∧ OsPath.dirname "//foo" = "//"
  ∧ OsPath.dirname "a//b" = "a" ∧ OsPath.dirname "foo" = "".
Proof. repeat split; reflexivity. Qed.

(** C1, as stated, fails: the selected directory [/tmp/foo_xyz] has an
    [_xyz] component, and [get_dest_path] returns it unchanged because no
    slash follows [_xyz]. *)
Lemma get_dest_path_xyz_not_rewritten :
  ¬ dest_path_as_specified "/tmp/foo_xyz".
Proof.
  intros [H _]. destruct H as (a & b & Hp & Hd).
  { exists "/tmp/foo", "". split; [reflexivity|by left]. }
  change (get_dest_path "/tmp/foo_xyz") with (Ok (A:=string) "/tmp/foo_xyz") in Hd.
  injection Hd as Hd.
  apply (f_equal String.length) in Hp, Hd.
  rewrite !str_length_app in Hp, Hd. simpl in Hp, Hd. lia.
Qed.

(** C1 (amended): [get_dest_path] returns the path unchanged when [_xyz/]
    (with the slash) does not occur in it, and otherwise returns it with
    the last occurrence of [_xyz/] replaced by [_dcdm/], the text before
    and after that occurrence kept as it is. *)
Theorem get_dest_path_rewrites_last_xyz_slash (p : string) :
  (¬ occurs "_xyz/" p → get_dest_path p = Ok p)
  ∧ (∀ a b, p = a +:+ "_xyz/" +:+ b → ¬ occurs "_xyz/" b →
            get_dest_path p = Ok (a +:+ "_dcdm/" +:+ b)).
Proof.
  split; [apply get_dest_path_absent|].
  intros a b -> Hb. by apply get_dest_path_last.
Qed.

Lemma get_dest_path_rewrites_last_xyz_slash_witness :
  get_dest_path "/tmp/foo" = Ok "/tmp/foo"
  ∧ get_dest_path "/tmp/a_xyz/foo_xyz/sub" = Ok "/tmp/a_xyz/foo_dcdm/sub".
Proof.
  split.
  - apply (proj1 (get_dest_path_rewrites_last_xyz_slash "/tmp/foo")).
    intros H%rfind_occurs. vm_compute in H. by apply H.
  - apply (proj2 (get_dest_path_rewrites_last_xyz_slash
                    "/tmp/a_xyz/foo_xyz/sub") "/tmp/a_xyz/foo" "sub").
    + reflexivity.
    + intros H%rfind_occurs. vm_compute in H. by apply H.
Defined.

(** ** [os.path] *)

Lemma rfind_after s old :
  old ≠ "" → 0 ≤ Str.rfind s old →
  Str.rfind (Str.drop (S (Z.to_nat (Str.rfind s old))) s) old = -1.
Proof.
  intros Hne. induction s as [|c s IH]; simpl.
  - destruct old; [done|simpl; lia].
  - pose proof (rfind_lower s old) as Hlow.
    destruct (Z.leb_spec 0 (Str.rfind s old)) as [Hr|Hr]; intros H.
    + rewrite Z2Nat.inj_add by lia. rewrite Nat.add_comm. simpl. by apply IH.
    + destruct (Str.startswith (String c s) old); [|lia]. simpl. lia.
Qed.

Lemma rstrip_decompose s : ∃ k, s = Str.rstrip s "/" +:+ Str.repeat "/" k.
Proof.
  induction s as [|c s [k IH]]; [by exists 0%nat|].
  cbn [Str.rstrip Str.contains_char].
  destruct (Str.rstrip s "/") as [|c' r] eqn:Hr.
  - rewrite str_app_nil_l in IH. rewrite orb_false_r.
    destruct (Ascii.eqb_spec "/" c) as [<-|Hc].
    + exists (S k). by rewrite IH at 1.
    + exists k. by rewrite IH at 1.
  - exists k. by rewrite IH at 1.
Qed.

(** The last component has no slash in it. *)
Lemma basename_no_slash p : ¬ occurs "/" (OsPath.basename p).
Proof.
  unfold OsPath.basename, Str.slice_from. pose proof (rfind_lower p "/").
  rewrite bound_nonneg by lia. rewrite <-rfind_occurs.
  destruct (Z.leb_spec 0 (Str.rfind p "/")) as [Hr|Hr].
  - rewrite Z2Nat.inj_add by lia. rewrite Nat.add_comm. simpl (_ + _)%nat.
    rewrite rfind_after by done. lia.
  - replace (Str.rfind p "/" + 1) with 0 by lia. simpl. lia.
Qed.

(** A path is its [dirname], slashes, and its [basename]. *)
Lemma dirname_basename p :
  ∃ k, p = OsPath.dirname p +:+ Str.repeat "/" k +:+ OsPath.basename p.
Proof.
  unfold OsPath.dirname, OsPath.basename, Str.slice_to, Str.slice_from.
  pose proof (rfind_lower p "/").
  rewrite !bound_nonneg by lia.
  set (i := Z.to_nat (Str.rfind p "/" + 1)).
  destruct (_ && _).
  - destruct (rstrip_decompose (Str.take i p)) as [k Hk]. exists k.
    by rewrite <-str_app_assoc, <-Hk, str_take_drop.
  - exists 0%nat. simpl. by rewrite str_app_nil_l, str_take_drop.
Qed.

(** ** Formatting *)

Section format_facts.

Local Arguments String.append !_ _ / : simpl nomatch.

Lemma format_confirm_msg n pl :
  Str.format "{} folder{} selected for TAR; OK?" [n; pl] ∅
  = Ok (n +:+ " folder" +:+ pl +:+ " selected for TAR; OK?").
Proof. reflexivity. Qed.

Lemma format_confirm_title n pl :
  Str.format "tarring {} folder{}" [n; pl] ∅
  = Ok ("tarring " +:+ n +:+ " folder" +:+ pl).
Proof.
  cbv [Str.format Str.format_go Str.snoc Ascii.eqb Bool.eqb res_map res_bind
       lookup list_lookup].
  cbv [String.append]. by rewrite str_app_nil_r.
Qed.

(** The shell text needs the three keys the loop body always sets. *)
Lemma format_shell_text (vars : gmap string string) tarname parentdir basename :
  vars !! "TARNAME" = Some tarname →
  vars !! "PARENTDIR" = Some parentdir →
  vars !! "BASENAME" = Some basename →
  Str.format ("/usr/bin/tar -cf {TARNAME}.tar -C {PARENTDIR} {BASENAME} ; "
              +:+ " tar -tvf {TARNAME}.tar | sort > {TARNAME}.tar.list") [] vars
  = Ok (shell_text tarname parentdir basename).
Proof.
  intros Ht Hp Hb. cbv [String.append].
  cbv [Str.format Str.format_go Str.snoc Ascii.eqb Bool.eqb res_map res_bind].
  rewrite Ht, Hp, Hb. reflexivity.
Qed.

Lemma format_literal (vars : gmap string string) s :
  s ∈ ["-jobName"; "-userRights"; "-description"; "TAR + List file"; "sh"; "-c"] →
  Str.format s [] vars = Ok s.
Proof.
  intros H. repeat (apply elem_of_cons in H as [->|H]; [reflexivity|]).
  by apply elem_of_nil in H.
Qed.

Ltac format_one_field H :=
  cbv [Str.format Str.format_go Str.snoc Ascii.eqb Bool.eqb res_map res_bind];
  rewrite H; cbv [String.append]; by rewrite str_app_nil_r.

Lemma format_cmdjob (vars : gmap string string) v :
  vars !! "CMDJOB" = Some v → Str.format "{CMDJOB}" [] vars = Ok v.
Proof. intros H. format_one_field H. Qed.

Lemma format_jobname (vars : gmap string string) v :
  vars !! "JOBNAME" = Some v → Str.format "{JOBNAME}" [] vars = Ok v.
Proof. intros H. format_one_field H. Qed.

Lemma format_manager (vars : gmap string string) v :
  vars !! "BBMANAGER" = Some v →
  Str.format "-manager:{BBMANAGER}" [] vars = Ok ("-manager:" +:+ v).
Proof. intros H. format_one_field H. Qed.

Lemma format_group (vars : gmap string string) v :
  vars !! "BBGROUP" = Some v →
  Str.format "-group:{BBGROUP}" [] vars = Ok ("-group:" +:+ v).
Proof. intros H. format_one_field H. Qed.

Lemma format_priority (vars : gmap string string) v :
  vars !! "PRIORITY" = Some v →
  Str.format "-priority:{PRIORITY}" [] vars = Ok ("-priority:" +:+ v).
Proof. intros H. format_one_field H. Qed.

End format_facts.

(** ** The command line *)

Lemma format_each_Ok cmdline vars l :
  format_each cmdline vars = Ok l
  ↔ Forall2 (λ x y, Str.format x [] vars = Ok y) cmdline l.
Proof.
  revert l. induction cmdline as [|x rest IH]; intros l; simpl.
  - split; [intros [= <-]; constructor|by intros ->%Forall2_nil_inv_l].
  - destruct (Str.format x [] vars) as [y|e] eqn:Hx; simpl.
    + unfold res_map. destruct (format_each rest vars) as [l'|e]; simpl.
      * split.
        -- intros [= <-]. constructor; [done|by apply IH].
        -- intros (y' & l'' & Hy & Hl & ->)%Forall2_cons_inv_l.
           apply IH in Hl. congruence.
      * split; [done|].
        intros (y' & l'' & Hy & Hl & ->)%Forall2_cons_inv_l.
        by apply IH in Hl.
    + split; [done|].
      intros (y' & l'' & Hy & Hl & ->)%Forall2_cons_inv_l. congruence.
Qed.

(** The dictionary the loop body formats with. *)
Lemma vars_lookup (cfg : gmap string string) tarname basename jobname parentdir :
  let vars := <["PARENTDIR" := parentdir]> (<["JOBNAME" := jobname]>
                (<["BASENAME" := basename]> (<["TARNAME" := tarname]> cfg))) in
  vars !! "TARNAME" = Some tarname
  ∧ vars !! "BASENAME" = Some basename
  ∧ vars !! "JOBNAME" = Some jobname
  ∧ vars !! "PARENTDIR" = Some parentdir
  ∧ vars !! "CMDJOB" = cfg !! "CMDJOB"
  ∧ vars !! "BBMANAGER" = cfg !! "BBMANAGER"
  ∧ vars !! "BBGROUP" = cfg !! "BBGROUP"
  ∧ vars !! "PRIORITY" = cfg !! "PRIORITY".
Proof. intros vars. subst vars. repeat split; by simplify_map_eq. Qed.

(** With the four configuration keys present, the command line is the
    template with every field filled in. *)
Lemma make_cmdline_ok cfg item_path dest cmdjob manager group priority :
  cfg !! "CMDJOB" = Some cmdjob →
  cfg !! "BBMANAGER" = Some manager →
  cfg !! "BBGROUP" = Some group →
  cfg !! "PRIORITY" = Some priority →
  get_dest_path (Str.rstrip item_path "/") = Ok dest →
  make_cmdline cfg item_path
  = Ok [cmdjob; "-manager:" +:+ manager; "-group:" +:+ group;
        "-priority:" +:+ priority;
        "-jobName"; OsPath.basename (Str.rstrip item_path "/") +:+ " DCDM";
        "-userRights"; "-description"; "TAR + List file"; "sh"; "-c";
        shell_text dest (OsPath.dirname (Str.rstrip item_path "/"))
                   (OsPath.basename (Str.rstrip item_path "/"))].
Proof.
  intros Hc Hm Hg Hp Hd. unfold make_cmdline. rewrite Hd. cbv beta zeta iota delta [res_bind].
  match goal with |- format_each _ ?v = _ => set (vars := v) end.
  destruct (vars_lookup cfg dest (OsPath.basename (Str.rstrip item_path "/"))
              (OsPath.basename (Str.rstrip item_path "/") +:+ " DCDM")
              (OsPath.dirname (Str.rstrip item_path "/")))
    as (Ht & Hb & Hj & Hpd & Hc' & Hm' & Hg' & Hp').
  fold vars in Ht, Hb, Hj, Hpd, Hc', Hm', Hg', Hp'.
  rewrite Hc in Hc'. rewrite Hm in Hm'. rewrite Hg in Hg'. rewrite Hp in Hp'.
  clearbody vars. apply format_each_Ok. unfold cmdline_template.
  repeat (apply Forall2_cons; split); try apply Forall2_nil_2;
    try (apply format_literal; set_solver).
  - exact (format_cmdjob _ _ Hc').
  - exact (format_manager _ _ Hm').
  - exact (format_group _ _ Hg').
  - exact (format_priority _ _ Hp').
  - exact (format_jobname _ _ Hj).
  - exact (format_shell_text _ _ _ _ Ht Hpd Hb).
Qed.


(** ** The loop *)

Lemma popen_calls_app l1 l2 :
  popen_calls (l1 ++ l2) = popen_calls l1 ++ popen_calls l2.
Proof. apply omap_app. Qed.

Lemma res_of_prepend {A} pre (m : M A) : res_of (prepend pre m) = res_of m.
Proof. by destruct m. Qed.

Lemma log_of_prepend {A} pre (m : M A) : log_of (prepend pre m) = pre ++ log_of m.
Proof. by destruct m. Qed.

Lemma prepend_nil {A} (m : M A) : prepend [] m = m.
Proof. by destruct m. Qed.

Section loop_facts.

Context (w : World) (cfg : gmap string string) (prompt : Prompt).

Local Arguments make_cmdline : simpl never.
Local Arguments Str.rstrip : simpl never.

Lemma tardir_loop_nil test_mode returncodes h :
  tardir_loop w cfg prompt test_mode [] returncodes h
  = Run [] (Ok (RCodes returncodes)).
Proof. reflexivity. Qed.

Lemma popen_calls_ask h item : popen_calls (ask_events w h item) = [].
Proof. unfold ask_events. by destruct (_ && _). Qed.

Lemma popen_calls_turn_start h item :
  popen_calls (h ++ ask_events w h item) = popen_calls h.
Proof. by rewrite popen_calls_app, popen_calls_ask, app_nil_r. Qed.

Lemma bind_run {A B} (m : Prog A) (f : A → Prog B) h :
  (m ≫= f) h
  = match m h with
    | Run l (Ok a) => prepend l (f a (h ++ l))
    | Run l (Err e) => Run l (Err e)
    end.
Proof. reflexivity. Qed.

Lemma prepend_prepend {A} pre1 pre2 (m : M A) :
  prepend pre1 (prepend pre2 m) = prepend (pre1 ++ pre2) m.
Proof. destruct m. unfold prepend. by rewrite app_assoc. Qed.

(** The loop body after the overwrite question. *)
Lemma tardir_loop_body (test_mode : bool) item rest returncodes h :
  (destpath ← lift (get_dest_path (Str.rstrip (path item) "/"));
   cmdline ← lift (format_each cmdline_template
     (<["PARENTDIR":=OsPath.dirname (Str.rstrip (path item) "/")]>
        (<["JOBNAME":=OsPath.basename (Str.rstrip (path item) "/")
                      +:+ " DCDM"]>
           (<["BASENAME":=OsPath.basename (Str.rstrip (path item) "/")]>
              (<["TARNAME":=destpath]> cfg)))));
   if test_mode then mret (RCmdline cmdline)
   else
     rc ← spawn w cmdline;
     tardir_loop w cfg prompt test_mode rest (returncodes ++ [rc])
   : Prog result) h
  = match make_cmdline cfg (path item) with
    | Ok cmdline =>
        if test_mode then Run [] (Ok (RCmdline cmdline))
        else
          match popen w (popen_calls h) cmdline with
          | Ok rc =>
              prepend [EPopen cmdline]
                (tardir_loop w cfg prompt test_mode rest (returncodes ++ [rc])
                   (h ++ [EPopen cmdline]))
          | Err e => Run [EPopen cmdline] (Err e)
          end
    | Err e => Run [] (Err e)
    end.
Proof.
  rewrite bind_run. unfold make_cmdline, lift at 1.
  destruct (get_dest_path (Str.rstrip (path item) "/")) as [dest|e];
    cbn [res_bind]; [|done].
  rewrite app_nil_r, prepend_nil, bind_run. unfold lift at 1.
  destruct (format_each _ _) as [cmdline|e]; [|done].
  rewrite app_nil_r, prepend_nil.
  destruct test_mode; [done|].
  rewrite bind_run. unfold spawn at 1.
  by destruct (popen w (popen_calls h) cmdline).
Qed.

(** One turn of the loop, in terms of the vocabulary above. *)
Lemma tardir_loop_step test_mode item rest returncodes h :
  tardir_loop w cfg prompt test_mode (item :: rest) returncodes h
  = if processed w prompt h item then
      match make_cmdline cfg (path item) with
      | Err e => Run (ask_events w h item) (Err e)
      | Ok cmdline =>
          if test_mode then Run (ask_events w h item) (Ok (RCmdline cmdline))
          else
            match popen w (popen_calls h) cmdline with
            | Err e => Run (ask_events w h item ++ [EPopen cmdline]) (Err e)
            | Ok rc =>
                prepend (ask_events w h item ++ [EPopen cmdline])
                  (tardir_loop w cfg prompt test_mode rest (returncodes ++ [rc])
                     (h ++ ask_events w h item ++ [EPopen cmdline]))
            end
      end
    else
      prepend (ask_events w h item)
        (tardir_loop w cfg prompt test_mode rest returncodes
           (h ++ ask_events w h item)).
Proof.
  cbn [tardir_loop]. fold (archive_path item).
  rewrite bind_run. unfold os_path_isdir at 1, processed, ask_events.
  rewrite app_nil_r, prepend_nil.
  destruct (isdir w (popen_calls h) (path item)); cbn [negb andb].
  2:{ by rewrite app_nil_r, prepend_nil. }
  rewrite bind_run. unfold os_path_isfile at 1.
  rewrite app_nil_r, prepend_nil, bind_run.
  destruct (isfile w (popen_calls h) (archive_path item)); cbn [negb orb].
  - rewrite bind_run. unfold ask at 1.
    fold (overwrite_msg (archive_path item)).
    fold (overwrite_title (archive_path item)).
    destruct (prompt h _ _); cbn [negb mret Prog_ret prepend app].
    + rewrite tardir_loop_body, popen_calls_app.
      change (popen_calls [EPrompt _ _]) with (@nil (list string)).
      rewrite app_nil_r.
      destruct (make_cmdline cfg (path item)) as [cmdline|e]; [|done].
      destruct test_mode; [done|].
      destruct (popen w (popen_calls h) cmdline); [|done].
      by rewrite prepend_prepend, <-app_assoc.
    + done.
  - cbn [mret Prog_ret]. rewrite app_nil_r, prepend_nil, tardir_loop_body.
    destruct (make_cmdline cfg (path item)) as [cmdline|e]; [|done].
    destruct test_mode; [done|]. done.
Qed.

Lemma item_events_processed h item cmdline :
  processed w prompt h item = true →
  make_cmdline cfg (path item) = Ok cmdline →
  item_events w cfg prompt h item = ask_events w h item ++ [EPopen cmdline].
Proof. intros Hp Hc. unfold item_events. by rewrite Hp, Hc. Qed.

Lemma item_events_skipped h item :
  processed w prompt h item = false →
  item_events w cfg prompt h item = ask_events w h item.
Proof. intros Hp. unfold item_events. by rewrite Hp, app_nil_r. Qed.

(** The turn of the [i]-th item starts with the log the turns before it
    have left. *)
Lemma turns_length h sel : length (turns w cfg prompt h sel) = length sel.
Proof.
  revert h. induction sel as [|item rest IH]; intros h; [done|].
  simpl. by rewrite IH.
Qed.

Lemma turns_lookup h sel i item :
  sel !! i = Some item →
  turns w cfg prompt h sel !! i
  = Some (item_events w cfg prompt
            (h ++ concat (take i (turns w cfg prompt h sel))) item).
Proof.
  revert h i. induction sel as [|x rest IH]; intros h [|i] Hi; try done.
  - injection Hi as ->. simpl. by rewrite app_nil_r.
  - cbn [turns lookup list_lookup take concat]. rewrite (IH _ _ Hi).
    by rewrite app_assoc.
Qed.

(** A run of the loop in normal mode that returns: its log is the turns
    of all the items, and the return codes are the answers of the
    processes in it, each spawned after the ones before it. *)
Lemma tardir_loop_returns sel returncodes h log r :
  tardir_loop w cfg prompt false sel returncodes h = Run log (Ok r) →
  log = concat (turns w cfg prompt h sel)
  ∧ ∃ codes,
      r = RCodes (returncodes ++ codes)
      ∧ length codes = length (popen_calls log)
      ∧ ∀ j cmdline, popen_calls log !! j = Some cmdline →
          ∃ rc, codes !! j = Some rc
            ∧ popen w (popen_calls h ++ take j (popen_calls log)) cmdline
              = Ok rc.
Proof.
  revert returncodes h log r.
  induction sel as [|item rest IH]; intros rcs h log r.
  - rewrite tardir_loop_nil. intros [= <- <-]. split; [done|]. exists [].
    rewrite app_nil_r. by repeat split.
  - rewrite tardir_loop_step. cbn [turns concat].
    destruct (processed w prompt h item) eqn:Hp.
    + destruct (make_cmdline cfg (path item)) as [cmdline|e] eqn:Hc; [|done].
      destruct (popen w (popen_calls h) cmdline) as [rc|e] eqn:Hrc; [|done].
      destruct (tardir_loop _ _ _ _ _ _ _) as [log' r'] eqn:Hrest.
      unfold prepend. intros [= <- ->].
      apply IH in Hrest as (-> & codes & -> & Hlen & Hcodes).
      rewrite (item_events_processed _ _ _ Hp Hc).
      split; [by rewrite <-!app_assoc|]. exists (rc :: codes).
      rewrite <-(app_assoc rcs). split; [done|].
      rewrite !popen_calls_app, popen_calls_ask. cbn [popen_calls omap app].
      fold (popen_calls (concat (turns w cfg prompt
              (h ++ ask_events w h item ++ [EPopen cmdline]) rest))).
      split; [simpl; by rewrite Hlen|].
      intros [|j] c Hj.
      * injection Hj as <-. exists rc. by rewrite app_nil_r.
      * apply Hcodes in Hj as (rc' & ? & Hpop). exists rc'. split; [done|].
        rewrite !popen_calls_app, popen_calls_ask in Hpop.
        by rewrite <-app_assoc in Hpop.
    + destruct (tardir_loop _ _ _ _ _ _ _) as [log' r'] eqn:Hrest.
      unfold prepend. intros [= <- ->].
      apply IH in Hrest as (-> & codes & -> & Hlen & Hcodes).
      rewrite (item_events_skipped _ _ Hp). split; [done|]. exists codes.
      split; [done|]. rewrite !popen_calls_app, popen_calls_ask. cbn [app].
      split; [done|]. intros j c Hj.
      apply Hcodes in Hj as (rc' & ? & Hpop). exists rc'. split; [done|].
      by rewrite popen_calls_turn_start in Hpop.
Qed.


(** The log of every run of the loop, in either mode and whatever its
    outcome, is an initial part of the turns. *)
Lemma tardir_loop_log_prefix test_mode sel returncodes h :
  log_of (tardir_loop w cfg prompt test_mode sel returncodes h)
  `prefix_of` concat (turns w cfg prompt h sel).
Proof.
  revert returncodes h. induction sel as [|item rest IH]; intros rcs h; [done|].
  rewrite tardir_loop_step. cbn [turns concat].
  destruct (processed w prompt h item) eqn:Hp.
  - destruct (make_cmdline cfg (path item)) as [c|e] eqn:Hc.
    + rewrite (item_events_processed _ _ _ Hp Hc).
      destruct test_mode.
      { rewrite <-app_assoc. by apply prefix_app_r. }
      destruct (popen w (popen_calls h) c).
      * rewrite log_of_prepend. by apply prefix_app.
      * by apply prefix_app_r.
    + unfold item_events. rewrite Hp, Hc, app_nil_r. by apply prefix_app_r.
  - rewrite (item_events_skipped _ _ Hp), log_of_prepend.
    by apply prefix_app.
Qed.

(** Every process in the log, in either mode and whether or not the run
    returns, was spawned for a selected item with the command line
    formatted for it. *)
Lemma tardir_loop_popen test_mode sel returncodes h cmdline :
  EPopen cmdline ∈ log_of (tardir_loop w cfg prompt test_mode sel returncodes h) →
  ∃ item, item ∈ sel ∧ make_cmdline cfg (path item) = Ok cmdline.
Proof.
  revert returncodes h.
  induction sel as [|item rest IH]; intros rcs h.
  - rewrite tardir_loop_nil. by intros ?%elem_of_nil.
  - rewrite tardir_loop_step.
    assert (EPopen cmdline ∉ ask_events w h item) as Hask.
    { unfold ask_events.
      destruct (_ && _);
        [by intros [=]%list_elem_of_singleton|by intros ?%elem_of_nil]. }
    assert (∀ pre m, EPopen cmdline ∈ log_of (@prepend result pre m) →
                     EPopen cmdline ∈ pre ∨ EPopen cmdline ∈ log_of m) as Hpre.
    { intros pre [l r]. simpl. by intros ?%elem_of_app. }
    destruct (processed w prompt h item) eqn:Hp.
    + destruct (make_cmdline cfg (path item)) as [c|e] eqn:Hc; [|done].
      assert (EPopen cmdline ∈ ask_events w h item ++ [EPopen c] →
              ∃ item0, item0 ∈ item :: rest
                ∧ make_cmdline cfg (path item0) = Ok cmdline) as Hhere.
      { intros [?|[= <-]%list_elem_of_singleton]%elem_of_app; [done|].
        exists item. split; [left|done]. }
      destruct test_mode; [done|].
      destruct (popen w (popen_calls h) c) as [rc|e]; [|done].
      intros [?|Hin]%Hpre; [auto|].
      apply IH in Hin as (item0 & ? & ?). exists item0. split; [by right|done].
    + intros [?|Hin]%Hpre; [done|].
      apply IH in Hin as (item0 & ? & ?). exists item0. split; [by right|done].
Qed.

(** The command line test mode returns is the one formatted for a
    selected item. *)
Lemma tardir_loop_test sel returncodes h cmdline :
  res_of (tardir_loop w cfg prompt true sel returncodes h)
  = Ok (RCmdline cmdline) →
  ∃ item, item ∈ sel ∧ make_cmdline cfg (path item) = Ok cmdline.
Proof.
  revert h. induction sel as [|item rest IH]; intros h.
  - by rewrite tardir_loop_nil.
  - rewrite tardir_loop_step.
    destruct (processed w prompt h item) eqn:Hp.
    + destruct (make_cmdline cfg (path item)) as [c|e] eqn:Hc; [|done].
      intros [= <-]. exists item. split; [left|done].
    + rewrite res_of_prepend. intros (item0 & ? & ?)%IH.
      exists item0. split; [by right|done].
Qed.

End loop_facts.

(** ** [tardir_go] *)

Lemma tardir_go_unfold w cfg sel prompt test_mode :
  tardir_go w cfg sel prompt test_mode
  = if prompt [] (confirm_msg sel) (confirm_title sel)
    then prepend [EPrompt (confirm_msg sel) (confirm_title sel)]
           (tardir_loop w cfg prompt test_mode sel []
              [EPrompt (confirm_msg sel) (confirm_title sel)])
    else Run [EPrompt (confirm_msg sel) (confirm_title sel)] (Ok RNone).
Proof.
  unfold tardir_go, tardir_go_body.
  rewrite bind_run, format_confirm_msg. unfold lift at 1.
  rewrite app_nil_r, prepend_nil, bind_run, format_confirm_title.
  unfold lift at 1. rewrite app_nil_r, prepend_nil, bind_run.
  unfold ask at 1.
  fold (plural sel). fold (confirm_msg sel). fold (confirm_title sel).
  by destruct (prompt [] _ _).
Qed.

Lemma tardir_go_popen w cfg sel prompt test_mode cmdline :
  EPopen cmdline ∈ log_of (tardir_go w cfg sel prompt test_mode) →
  ∃ item, item ∈ sel ∧ make_cmdline cfg (path item) = Ok cmdline.
Proof.
  rewrite tardir_go_unfold. destruct (prompt [] _ _).
  - rewrite log_of_prepend.
    intros [[=]%list_elem_of_singleton|H]%elem_of_app.
    by apply tardir_loop_popen in H.
  - by intros [=]%list_elem_of_singleton.
Qed.

(** A confirmed run in normal mode that returns: the log is the
    confirmation and the turns of all the items, and the result is the
    list of the return codes of the processes in the log. *)
Lemma tardir_go_returns w cfg sel prompt r :
  prompt [] (confirm_msg sel) (confirm_title sel) = true →
  res_of (tardir_go w cfg sel prompt false) = Ok r →
  let start := [EPrompt (confirm_msg sel) (confirm_title sel)] in
  let calls := popen_calls (log_of (tardir_go w cfg sel prompt false)) in
  log_of (tardir_go w cfg sel prompt false)
  = start ++ concat (turns w cfg prompt start sel)
  ∧ ∃ codes,
      r = RCodes codes
      ∧ length codes = length calls
      ∧ ∀ j cmdline, calls !! j = Some cmdline →
          ∃ rc, codes !! j = Some rc
            ∧ popen w (take j calls) cmdline = Ok rc.
Proof.
  intros Hok. rewrite tardir_go_unfold, Hok.
  rewrite res_of_prepend, log_of_prepend.
  destruct (tardir_loop _ _ _ _ _ _ _) as [log r'] eqn:Hloop.
  simpl. intros ->.
  apply tardir_loop_returns in Hloop as (-> & codes & -> & Hlen & Hcodes).
  split; [done|]. exists codes. by repeat split.
Qed.

(** The turns of a run, one by one. *)
Lemma turns_by_index w cfg prompt h sel :
  length (turns w cfg prompt h sel) = length sel
  ∧ ∀ i item, sel !! i = Some item →
      turns w cfg prompt h sel !! i
      = Some (item_events w cfg prompt
                (h ++ concat (take i (turns w cfg prompt h sel))) item).
Proof. split; [apply turns_length|apply turns_lookup]. Qed.

(** The assertions of [test_tar] on [/tmp/foo_xyz/sub]. *)
Example test_tar_sub_test_mode :
  tardir_go test_world config [{| path := "/tmp/foo_xyz/sub" |}]
    fake_askyesno true
  = Run [EPrompt "1 folder selected for TAR; OK?" "tarring 1 folder"]
        (Ok (RCmdline sub_cmdline)).
Proof. vm_compute. reflexivity. Qed.

Example test_tar_sub_run :
  tardir_go test_world config [{| path := "/tmp/foo_xyz/sub" |}]
    fake_askyesno false
  = Run [EPrompt "1 folder selected for TAR; OK?" "tarring 1 folder";
         EPopen sub_cmdline]
        (Ok (RCodes [0])).
Proof. vm_compute. reflexivity. Qed.

Example test_tar_sub2_test_mode :
  ∃ cmdline,
    res_of (tardir_go test_world config [{| path := "/tmp/foo_xyz/sub/sub2" |}]
              fake_askyesno true) = Ok (RCmdline cmdline)
    ∧ cmdline !! 11%nat
      = Some "/usr/bin/tar -cf /tmp/foo_dcdm/sub/sub2.tar -C /tmp/foo_xyz/sub sub2 ;  tar -tvf /tmp/foo_dcdm/sub/sub2.tar | sort > /tmp/foo_dcdm/sub/sub2.tar.list".
Proof. eexists. split; [vm_compute; reflexivity|reflexivity]. Qed.

(** Two paths selected: two return codes. *)
Example test_tar_two_paths :
  res_of (tardir_go test_world config
            [{| path := "/tmp/foo" |}; {| path := "/tmp/foo" |}]
            fake_askyesno false)
  = Ok (RCodes [0; 0]).
Proof. vm_compute. reflexivity. Qed.

(** The same selection when the jobs run: the first job writes
    [/tmp/foo.tar], and the second turn finds it and asks. *)
Example two_paths_second_turn_asks :
  tardir_go (tar_world ["/tmp/foo"]) config
    [{| path := "/tmp/foo" |}; {| path := "/tmp/foo" |}] fake_askyesno false
  = Run [EPrompt "2 folders selected for TAR; OK?" "tarring 2 folders";
         EPopen foo_cmdline;
         EPrompt "Overwrite /tmp/foo.tar ?" "/tmp/foo.tar exists";
         EPopen foo_cmdline]
        (Ok (RCodes [0; 0])).
Proof. vm_compute. reflexivity. Qed.

Example confirm_msg_counts :
  confirm_msg [] = "0 folder selected for TAR; OK?"
  ∧ confirm_msg [{| path := "a" |}; {| path := "b" |}]
    = "2 folders selected for TAR; OK?"
  ∧ length (replicate 12 {| path := "a" |}) = 12%nat
  ∧ confirm_title (replicate 12 {| path := "a" |}) = "tarring 12 folders".
Proof. repeat split; vm_compute; reflexivity. Qed.

(** C2: the path of the directory is pasted into the shell text as it is,
    without quoting.  For the selected directory [/tmp/my dir] the job
    that [tardir_go] submits runs [sh -c] on a text in which the archive
    name, the parent directory and the base name are no longer single
    words: [tar -cf] is followed by [/tmp/my], [dir.tar], [-C], [/tmp],
    [my] and [dir]. *)
Lemma tardir_go_pastes_path_unquoted :
  tardir_go (tar_world ["/tmp/my dir"]) config [{| path := "/tmp/my dir" |}]
    fake_askyesno false
  = Run [EPrompt "1 folder selected for TAR; OK?" "tarring 1 folder";
         EPopen my_dir_cmdline]
        (Ok (RCodes [0]))
  ∧ my_dir_cmdline !! 9%nat = Some "sh"
  ∧ my_dir_cmdline !! 10%nat = Some "-c"
  ∧ my_dir_cmdline !! 11%nat
    = Some "/usr/bin/tar -cf /tmp/my dir.tar -C /tmp my dir ;  tar -tvf /tmp/my dir.tar | sort > /tmp/my dir.tar.list".
Proof. split; [vm_compute; reflexivity|]. by repeat split. Qed.

(** C3, as stated, fails: a selected entry that is not a directory is
    skipped, nothing is executed for it.  With [/tmp/notes.txt] selected
    the log holds the confirmation dialog and no process. *)
Lemma tardir_go_skips_non_directory :
  ¬ every_item_executed test_world config
      [{| path := "/tmp/notes.txt" |}] fake_askyesno.
Proof.
  intros H. destruct (H {| path := "/tmp/notes.txt" |}) as (c & _ & Hin).
  { by left. }
  assert (log_of (tardir_go test_world config
            [{| path := "/tmp/notes.txt" |}] fake_askyesno false)
          = [EPrompt "1 folder selected for TAR; OK?" "tarring 1 folder"])
    as Hlog by (vm_compute; reflexivity).
  rewrite Hlog in Hin. by apply list_elem_of_singleton in Hin.
Qed.

(** C3 (amended): a run of [tardir_go] in normal mode that the user
    confirms and that returns has asked the confirmation once, for the
    whole selection, and has then gone through the selected items in
    order, one turn each.  What a turn adds to the log is decided when
    the turn starts, [h] being the log and [jobs] the processes of the
    run so far: an item that is not a directory then adds nothing; a
    directory whose archive exists then adds the overwrite question; and
    a directory that is processed (no archive, or overwriting agreed)
    adds after that the process spawned with the command line formatted
    from its destination path. *)
Theorem tardir_go_log_is_confirm_then_items
    (w : World) (cfg : gmap string string) (sel : list PathItem)
    (prompt : Prompt) (r : result) :
  prompt [] (confirm_msg sel) (confirm_title sel) = true →
  res_of (tardir_go w cfg sel prompt false) = Ok r →
  ∃ turns : list (list event),
    log_of (tardir_go w cfg sel prompt false)
    = EPrompt (confirm_msg sel) (confirm_title sel) :: concat turns
    ∧ length turns = length sel
    ∧ ∀ i item, sel !! i = Some item →
        let h := EPrompt (confirm_msg sel) (confirm_title sel)
                 :: concat (take i turns) in
        let jobs := popen_calls h in
        turns !! i
        = Some ((if isdir w jobs (path item) && isfile w jobs (archive_path item)
                 then [EPrompt ("Overwrite " +:+ archive_path item +:+ " ?")
                               (archive_path item +:+ " exists")]
                 else [])
                ++ (if isdir w jobs (path item)
                       && (negb (isfile w jobs (archive_path item))
                           || prompt h ("Overwrite " +:+ archive_path item
                                        +:+ " ?")
                                       (archive_path item +:+ " exists"))
                    then match make_cmdline cfg (path item) with
                         | Ok cmdline => [EPopen cmdline]
                         | Err _ => []
                         end
                    else [])).
Proof.
  intros Hok Hr.
  destruct (tardir_go_returns w cfg sel prompt r Hok Hr) as [Hlog _].
  destruct (turns_by_index w cfg prompt
              [EPrompt (confirm_msg sel) (confirm_title sel)] sel)
    as [Hlen Hturn].
  eexists. split; [exact Hlog|]. split; [done|].
  intros i item Hi. by rewrite (Hturn i item Hi).
Qed.

Lemma tardir_go_log_is_confirm_then_items_witness :
  let w := tar_world ["/tmp/foo"] in
  let sel := [{| path := "/tmp/foo" |}; {| path := "/tmp/notes.txt" |};
              {| path := "/tmp/foo" |}] in
  ∃ turns : list (list event),
    log_of (tardir_go w config sel fake_askyesno false)
    = EPrompt (confirm_msg sel) (confirm_title sel) :: concat turns
    ∧ length turns = length sel
    ∧ ∀ i item, sel !! i = Some item →
        let h := EPrompt (confirm_msg sel) (confirm_title sel)
                 :: concat (take i turns) in
        let jobs := popen_calls h in
        turns !! i
        = Some ((if isdir w jobs (path item) && isfile w jobs (archive_path item)
                 then [EPrompt ("Overwrite " +:+ archive_path item +:+ " ?")
                               (archive_path item +:+ " exists")]
                 else [])
                ++ (if isdir w jobs (path item)
                       && (negb (isfile w jobs (archive_path item))
                           || fake_askyesno h ("Overwrite " +:+ archive_path item
                                               +:+ " ?")
                                              (archive_path item +:+ " exists"))
                    then match make_cmdline config (path item) with
                         | Ok cmdline => [EPopen cmdline]
                         | Err _ => []
                         end
                    else [])).
Proof.
  apply (tardir_go_log_is_confirm_then_items (tar_world ["/tmp/foo"]) config
           [{| path := "/tmp/foo" |}; {| path := "/tmp/notes.txt" |};
            {| path := "/tmp/foo" |}] fake_askyesno (RCodes [0; 0])).
  - reflexivity.
  - vm_compute. reflexivity.
Defined.

(** C4: when the user cancels the confirmation dialog, [tardir_go] logs
    that dialog and nothing else (no overwrite question, no process) and
    returns [None]: no command line and no return codes. *)
Theorem tardir_go_cancelled
    (w : World) (cfg : gmap string string) (sel : list PathItem)
    (prompt : Prompt) (test_mode : bool) :
  prompt [] (confirm_msg sel) (confirm_title sel) = false →
  tardir_go w cfg sel prompt test_mode
  = Run [EPrompt (confirm_msg sel) (confirm_title sel)] (Ok RNone).
Proof. intros H. by rewrite tardir_go_unfold, H. Qed.

Lemma tardir_go_cancelled_witness :
  tardir_go test_world config [{| path := "/tmp/foo" |}] cancel_all false
  = Run [EPrompt "1 folder selected for TAR; OK?" "tarring 1 folder"]
        (Ok RNone).
Proof.
  apply (tardir_go_cancelled test_world config [{| path := "/tmp/foo" |}]
           cancel_all false).
  reflexivity.
Defined.

(** C6: with the four keys of the configuration present, the command
    line submitted for a processed directory is the template with its
    fields filled in for that directory.  The executable, manager, group
    and priority come from the configuration, [-jobName], [-userRights],
    [-description], [TAR + List file], [sh] and [-c] are literal, and the
    selected path enters only through the job name (base name and
    [ DCDM]) and, in the shell text, the destination path, the parent
    directory and the base name.  Every process of every run has such a
    command line; and in a confirmed run in normal mode that returns, the
    turn of every item that is processed ends with the one process whose
    command line is the template filled in for this item, and the turn of
    an item that is not processed has no process. *)
Theorem tardir_go_cmdline_is_template
    (w : World) (cfg : gmap string string) (sel : list PathItem)
    (prompt : Prompt) (cmdjob manager group priority : string) :
  cfg !! "CMDJOB" = Some cmdjob →
  cfg !! "BBMANAGER" = Some manager →
  cfg !! "BBGROUP" = Some group →
  cfg !! "PRIORITY" = Some priority →
  let template item tarname :=
    filled_template cmdjob manager group priority tarname
      (OsPath.dirname (Str.rstrip (path item) "/"))
      (OsPath.basename (Str.rstrip (path item) "/")) in
  (∀ test_mode cmdline,
     EPopen cmdline ∈ log_of (tardir_go w cfg sel prompt test_mode) →
     ∃ item tarname,
       item ∈ sel
       ∧ get_dest_path (Str.rstrip (path item) "/") = Ok tarname
       ∧ cmdline = template item tarname)
  ∧ (∀ r,
       prompt [] (confirm_msg sel) (confirm_title sel) = true →
       res_of (tardir_go w cfg sel prompt false) = Ok r →
       ∃ turns : list (list event),
         log_of (tardir_go w cfg sel prompt false)
         = EPrompt (confirm_msg sel) (confirm_title sel) :: concat turns
         ∧ length turns = length sel
         ∧ ∀ i item, sel !! i = Some item →
             let h := EPrompt (confirm_msg sel) (confirm_title sel)
                      :: concat (take i turns) in
             ∃ tarname,
               get_dest_path (Str.rstrip (path item) "/") = Ok tarname
               ∧ turns !! i
                 = Some (ask_events w h item
                         ++ (if processed w prompt h item
                             then [EPopen (template item tarname)]
                             else []))).
Proof.
  intros Hc Hm Hg Hp template.
  assert (∀ item, ∃ tarname,
            get_dest_path (Str.rstrip (path item) "/") = Ok tarname
            ∧ make_cmdline cfg (path item) = Ok (template item tarname))
    as Hmk.
  { intros item.
    destruct (get_dest_path_total (Str.rstrip (path item) "/")) as [dest Hd].
    exists dest. split; [done|].
    by rewrite (make_cmdline_ok _ _ _ _ _ _ _ Hc Hm Hg Hp Hd). }
  split.
  - intros test_mode cmdline (item & Hin & Hcmd)%tardir_go_popen.
    destruct (Hmk item) as (dest & Hd & Hmk').
    exists item, dest. split; [done|]. split; [done|]. congruence.
  - intros r Hok Hr.
    destruct (tardir_go_returns w cfg sel prompt r Hok Hr) as [Hlog _].
    destruct (turns_by_index w cfg prompt
                [EPrompt (confirm_msg sel) (confirm_title sel)] sel)
      as [Hlen Hturn].
    eexists. split; [exact Hlog|]. split; [done|].
    intros i item Hi h. destruct (Hmk item) as (dest & Hd & Hmk').
    exists dest. split; [done|].
    rewrite (Hturn i item Hi). unfold item_events. by rewrite Hmk'.
Qed.

Lemma tardir_go_cmdline_is_template_witness :
  let w := tar_world ["/tmp/foo"; "/tmp/foo_xyz/sub"] in
  let sel := [{| path := "/tmp/foo" |}; {| path := "/tmp/foo_xyz/sub" |}] in
  let template item tarname :=
    filled_template "/opt/Autodesk/backburner/cmdjob" "manager" "TARNODES"
      "30" tarname
      (OsPath.dirname (Str.rstrip (path item) "/"))
      (OsPath.basename (Str.rstrip (path item) "/")) in
  (∀ test_mode cmdline,
     EPopen cmdline ∈ log_of (tardir_go w config sel fake_askyesno test_mode) →
     ∃ item tarname,
       item ∈ sel
       ∧ get_dest_path (Str.rstrip (path item) "/") = Ok tarname
       ∧ cmdline = template item tarname)
  ∧ (∀ r,
       fake_askyesno [] (confirm_msg sel) (confirm_title sel) = true →
       res_of (tardir_go w config sel fake_askyesno false) = Ok r →
       ∃ turns : list (list event),
         log_of (tardir_go w config sel fake_askyesno false)
         = EPrompt (confirm_msg sel) (confirm_title sel) :: concat turns
         ∧ length turns = length sel
         ∧ ∀ i item, sel !! i = Some item →
             let h := EPrompt (confirm_msg sel) (confirm_title sel)
                      :: concat (take i turns) in
             ∃ tarname,
               get_dest_path (Str.rstrip (path item) "/") = Ok tarname
               ∧ turns !! i
                 = Some (ask_events w h item
                         ++ (if processed w fake_askyesno h item
                             then [EPopen (template item tarname)]
                             else []))).
Proof.
  apply (tardir_go_cmdline_is_template
           (tar_world ["/tmp/foo"; "/tmp/foo_xyz/sub"]) config
           [{| path := "/tmp/foo" |}; {| path := "/tmp/foo_xyz/sub" |}]
           fake_askyesno).
  - reflexivity.
  - reflexivity.
  - reflexivity.
  - reflexivity.
Defined.

(** The two command lines of that run. *)
Example each_directory_gets_its_command :
  tardir_go (tar_world ["/tmp/foo"; "/tmp/foo_xyz/sub"]) config
    [{| path := "/tmp/foo" |}; {| path := "/tmp/foo_xyz/sub" |}]
    fake_askyesno false
  = Run [EPrompt "2 folders selected for TAR; OK?" "tarring 2 folders";
         EPopen foo_cmdline; EPopen sub_cmdline]
        (Ok (RCodes [0; 0])).
Proof. vm_compute. reflexivity. Qed.

(** C7: the command line of a test-mode run is a function of the selected
    path and the configuration alone: two runs on the same path and
    configuration, in any two environments and with any two users, return
    the same command line when they return one; and two calls of
    [get_dest_path] on the same path give the same result. *)
Theorem tardir_go_test_mode_deterministic
    (cfg : gmap string string) (item : PathItem)
    (w1 w2 : World) (prompt1 prompt2 : Prompt)
    (cmdline1 cmdline2 : list string) :
  res_of (tardir_go w1 cfg [item] prompt1 true) = Ok (RCmdline cmdline1) →
  res_of (tardir_go w2 cfg [item] prompt2 true) = Ok (RCmdline cmdline2) →
  cmdline1 = cmdline2
  ∧ make_cmdline cfg (path item) = Ok cmdline1
  ∧ ∀ dest1 dest2,
      get_dest_path (path item) = dest1 → get_dest_path (path item) = dest2 →
      dest1 = dest2.
Proof.
  assert (∀ w prompt cmdline,
    res_of (tardir_go w cfg [item] prompt true) = Ok (RCmdline cmdline) →
    make_cmdline cfg (path item) = Ok cmdline) as Hone.
  { intros w prompt cmdline. rewrite tardir_go_unfold.
    destruct (prompt [] _ _); [|done]. rewrite res_of_prepend.
    intros (item0 & ->%list_elem_of_singleton & Hc)%tardir_loop_test.
    done. }
  intros H1%Hone H2%Hone. split; [congruence|]. split; [done|].
  congruence.
Qed.

Lemma tardir_go_test_mode_deterministic_witness :
  sub_cmdline = sub_cmdline
  ∧ make_cmdline config "/tmp/foo_xyz/sub" = Ok sub_cmdline
  ∧ ∀ dest1 dest2,
      get_dest_path "/tmp/foo_xyz/sub" = dest1 →
      get_dest_path "/tmp/foo_xyz/sub" = dest2 →
      dest1 = dest2.
Proof.
  apply (tardir_go_test_mode_deterministic config
           {| path := "/tmp/foo_xyz/sub" |}
           test_world
           {| isdir jobs p := true; isfile jobs p := true;
              popen jobs c := Err OSError |}
           fake_askyesno (λ log msg title, true)).
  - vm_compute. reflexivity.
  - vm_compute. reflexivity.
Defined.

(** ** One job per processed directory *)

Section more_string_facts.

Implicit Types s a b x y old : string.

Lemma str_app_inj_len a b x y :
  a +:+ x = b +:+ y → String.length a = String.length b → a = b ∧ x = y.
Proof.
  revert b. induction a as [|c a IH]; intros [|c' b]; try done.
  rewrite !str_app_cons. intros [= -> H] [= Hlen].
  by destruct (IH _ H Hlen) as [-> ->].
Qed.


Lemma occurs_app_r old a b : occurs old b → occurs old (a +:+ b).
Proof.
  intros (a' & b' & ->). exists (a +:+ a'), b'. by rewrite str_app_assoc.
Qed.

End more_string_facts.

(** C5: two selected directories, one archive file.  With the existing
    directories [/tmp/foo_dcdm/sub] and [/tmp/foo_xyz/sub] selected,
    [tardir_go] submits two jobs and returns two return codes, and both
    jobs write [/tmp/foo_dcdm/sub.tar], the destination of both paths.
    The second job runs without an overwrite question, since the file
    checked for it is [/tmp/foo_xyz/sub.tar]. *)
Lemma tardir_go_two_directories_one_archive :
  tardir_go dcdm_world config
    [{| path := "/tmp/foo_dcdm/sub" |}; {| path := "/tmp/foo_xyz/sub" |}]
    fake_askyesno false
  = Run [EPrompt "2 folders selected for TAR; OK?" "tarring 2 folders";
         EPopen dcdm_sub_cmdline; EPopen sub_cmdline]
        (Ok (RCodes [0; 0]))
  ∧ get_dest_path (Str.rstrip "/tmp/foo_dcdm/sub" "/") = Ok "/tmp/foo_dcdm/sub"
  ∧ get_dest_path (Str.rstrip "/tmp/foo_xyz/sub" "/") = Ok "/tmp/foo_dcdm/sub"
  ∧ dcdm_sub_cmdline !! 11%nat
    = Some "/usr/bin/tar -cf /tmp/foo_dcdm/sub.tar -C /tmp/foo_dcdm sub ;  tar -tvf /tmp/foo_dcdm/sub.tar | sort > /tmp/foo_dcdm/sub.tar.list"
  ∧ sub_cmdline !! 11%nat
    = Some "/usr/bin/tar -cf /tmp/foo_dcdm/sub.tar -C /tmp/foo_xyz sub ;  tar -tvf /tmp/foo_dcdm/sub.tar | sort > /tmp/foo_dcdm/sub.tar.list".
Proof. split; [vm_compute; reflexivity|]. by repeat split. Qed.

(** In the other order the second turn finds the archive the first job
    wrote, and asks before it is overwritten. *)
Example two_jobs_write_one_archive :
  tardir_go dcdm_world config
    [{| path := "/tmp/foo_xyz/sub" |}; {| path := "/tmp/foo_dcdm/sub" |}]
    fake_askyesno false
  = Run [EPrompt "2 folders selected for TAR; OK?" "tarring 2 folders";
         EPopen sub_cmdline;
         EPrompt "Overwrite /tmp/foo_dcdm/sub.tar ?"
                 "/tmp/foo_dcdm/sub.tar exists";
         EPopen dcdm_sub_cmdline]
        (Ok (RCodes [0; 0])).
Proof. vm_compute. reflexivity. Qed.

(** ** Trailing slashes *)

Lemma rstrip_only_slashes k : Str.rstrip (Str.repeat "/" k) "/" = "".
Proof.
  induction k as [|k IH]; [done|].
  change (Str.repeat "/" (S k)) with (String "/" (Str.repeat "/" k)).
  simpl. by rewrite IH.
Qed.

Lemma rstrip_slashes p k :
  Str.rstrip (p +:+ Str.repeat "/" k) "/" = Str.rstrip p "/".
Proof.
  induction p as [|c p IH].
  - by rewrite str_app_nil_l, rstrip_only_slashes.
  - rewrite str_app_cons. simpl. by rewrite IH.
Qed.

Lemma make_cmdline_rstrip cfg p q :
  Str.rstrip p "/" = Str.rstrip q "/" → make_cmdline cfg p = make_cmdline cfg q.
Proof. intros H. unfold make_cmdline. by rewrite H. Qed.

Lemma tardir_loop_rstrip w cfg prompt test_mode sel sel' returncodes h :
  Forall2 (λ item item',
             Str.rstrip (path item') "/" = Str.rstrip (path item) "/"
             ∧ ∀ jobs, isdir w jobs (path item') = isdir w jobs (path item))
          sel sel' →
  tardir_loop w cfg prompt test_mode sel' returncodes h
  = tardir_loop w cfg prompt test_mode sel returncodes h.
Proof.
  intros H. revert returncodes h.
  induction H as [|item item' sel sel' [Hs Hd] _ IH]; intros rcs h; [done|].
  rewrite !tardir_loop_step.
  unfold processed, ask_events, archive_path. rewrite Hs, Hd.
  rewrite (make_cmdline_rstrip cfg _ _ Hs), IH.
  destruct (make_cmdline cfg (path item)) as [c|e]; [|done].
  destruct (popen w (popen_calls h) c); [|done]. by rewrite IH.
Qed.

(** C10: appending trailing slashes to selected paths that are
    directories either way, at every point of the run, changes nothing:
    [tardir_go] asks the same questions, formats and submits the same
    command lines and returns the same result, in test mode and in normal
    mode, because the slashes are stripped before anything is computed
    from the path. *)
Theorem tardir_go_ignores_trailing_slashes
    (w : World) (cfg : gmap string string) (prompt : Prompt)
    (test_mode : bool) (sel sel' : list PathItem) :
  Forall2 (λ item item',
             (∃ k, path item' = path item +:+ Str.repeat "/" k)
             ∧ ∀ jobs, isdir w jobs (path item') = isdir w jobs (path item))
          sel sel' →
  tardir_go w cfg sel' prompt test_mode = tardir_go w cfg sel prompt test_mode
  ∧ Forall2 (λ item item',
               Str.rstrip (path item') "/" = Str.rstrip (path item) "/"
               ∧ make_cmdline cfg (path item') = make_cmdline cfg (path item))
            sel sel'.
Proof.
  intros H.
  assert (Forall2 (λ item item',
             Str.rstrip (path item') "/" = Str.rstrip (path item) "/"
             ∧ ∀ jobs, isdir w jobs (path item') = isdir w jobs (path item))
            sel sel') as H'.
  { eapply Forall2_impl; [exact H|]. intros item item' [[k ->] ?].
    by rewrite rstrip_slashes. }
  split.
  - rewrite !tardir_go_unfold. unfold confirm_msg, confirm_title, plural.
    rewrite <-(Forall2_length _ _ _ H).
    by rewrite (tardir_loop_rstrip _ _ _ _ _ _ _ _ H').
  - eapply Forall2_impl; [exact H'|]. intros item item' [Hs _].
    split; [done|]. by apply make_cmdline_rstrip.
Qed.

Lemma tardir_go_ignores_trailing_slashes_witness :
  (tardir_go test_world config [{| path := "/tmp/foo/" |}] fake_askyesno true
   = tardir_go test_world config [{| path := "/tmp/foo" |}] fake_askyesno true)
  ∧ Forall2 (λ item item',
               Str.rstrip (path item') "/" = Str.rstrip (path item) "/"
               ∧ make_cmdline config (path item')
                 = make_cmdline config (path item))
            [{| path := "/tmp/foo" |}] [{| path := "/tmp/foo/" |}].
Proof.
  apply (tardir_go_ignores_trailing_slashes test_world config fake_askyesno
           true [{| path := "/tmp/foo" |}] [{| path := "/tmp/foo/" |}]).
  constructor; [|constructor]. split; [|reflexivity].
  exists 1%nat. reflexivity.
Defined.

(** The two assertions of [test_tar] on [/tmp/foo] and [/tmp/foo/]. *)
Example test_tar_foo :
  ∀ p, p ∈ ["/tmp/foo"; "/tmp/foo/"] →
  ∃ cmdline,
    res_of (tardir_go test_world config [{| path := p |}] fake_askyesno true)
    = Ok (RCmdline cmdline)
    ∧ cmdline !! 0%nat = config !! "CMDJOB"
    ∧ cmdline !! 11%nat
      = Some "/usr/bin/tar -cf /tmp/foo.tar -C /tmp foo ;  tar -tvf /tmp/foo.tar | sort > /tmp/foo.tar.list".
Proof.
  intros p [->|[->|[]%elem_of_nil]%elem_of_cons]%elem_of_cons;
    eexists; (split; [vm_compute; reflexivity|]); split; reflexivity.
Qed.

(** ** The menu *)

Lemma menu_enabled_foldl w sel acc :
  foldl (λ is_enabled item,
           if isdir w [] (path item) then true else is_enabled) acc sel = true
  ↔ acc = true ∨ ∃ item, item ∈ sel ∧ isdir w [] (path item) = true.
Proof.
  revert acc. induction sel as [|x sel IH]; intros acc; simpl.
  - split; [by left|]. intros [?|(? & []%elem_of_nil & _)]; done.
  - rewrite IH. split.
    + intros [Hacc|(item & Hin & Hd)].
      * destruct (isdir w [] (path x)) eqn:Hx; [|by left].
        right. exists x. split; [left|done].
      * right. exists item. split; [by right|done].
    + intros [->|(item & [->|Hin]%elem_of_cons & Hd)].
      * left. by destruct (isdir w [] (path x)).
      * left. by rewrite Hd.
      * right. by exists item.
Qed.

(** C9: the menu action is enabled exactly when some selected item is an
    existing directory; one directory anywhere in the selection is enough,
    whatever the other items are. *)
Theorem menu_enabled_iff_some_directory (w : World) (sel : list PathItem) :
  (menu_enabled w sel = true
   ↔ ∃ item, item ∈ sel ∧ isdir w [] (path item) = true)
  ∧ (∀ before dir after,
       sel = before ++ dir :: after → isdir w [] (path dir) = true →
       menu_enabled w sel = true).
Proof.
  assert (menu_enabled w sel = true
          ↔ ∃ item, item ∈ sel ∧ isdir w [] (path item) = true) as Hiff.
  { unfold menu_enabled. rewrite menu_enabled_foldl.
    split; [by intros [[=]|?]|by right]. }
  split; [done|]. intros before dir after -> Hd. apply Hiff.
  exists dir. split; [|done]. apply elem_of_app. right. left.
Qed.

Lemma menu_enabled_iff_some_directory_witness :
  menu_enabled test_world
    [{| path := "/tmp/notes.txt" |}; {| path := "/tmp/clip.mov" |};
     {| path := "/tmp/foo" |}; {| path := "/tmp/render.exr" |}] = true.
Proof.
  apply (proj2 (menu_enabled_iff_some_directory test_world _)
           [{| path := "/tmp/notes.txt" |}; {| path := "/tmp/clip.mov" |}]
           {| path := "/tmp/foo" |} [{| path := "/tmp/render.exr" |}]).
  - reflexivity.
  - reflexivity.
Defined.

Example menu_disabled_without_directory :
  menu_enabled test_world
    [{| path := "/tmp/notes.txt" |}; {| path := "/tmp/clip.mov" |}] = false.
Proof. reflexivity. Qed.

(** ** The overwrite question *)

Lemma str_app_inj_suffix a b x y :
  a +:+ x = b +:+ y → String.length x = String.length y → x = y.
Proof.
  intros H Hlen. apply (str_app_inj_len a b x y H).
  apply (f_equal String.length) in H. rewrite !str_length_app in H. lia.
Qed.

Lemma popen_calls_elem log cmdline :
  cmdline ∈ popen_calls log ↔ EPopen cmdline ∈ log.
Proof.
  unfold popen_calls. rewrite list_elem_of_omap. split.
  - by intros ([] & ? & [= ->]).
  - intros ?. by exists (EPopen cmdline).
Qed.




(** The run of the witness: the job of [/tmp/foo_xyz/sub/] writes
    [/tmp/foo_dcdm/sub.tar], which is the file checked for
    [/tmp/foo_dcdm/sub]; the user keeps it. *)
Example checked_where_the_first_job_wrote :
  tardir_go (tar_world ["/tmp/foo_dcdm/sub"; "/tmp/foo_xyz/sub/"]) config
    [{| path := "/tmp/foo_xyz/sub/" |}; {| path := "/tmp/foo_dcdm/sub" |}]
    keep_archives false
  = Run [EPrompt "2 folders selected for TAR; OK?" "tarring 2 folders";
         EPopen sub_cmdline;
         EPrompt "Overwrite /tmp/foo_dcdm/sub.tar ?"
                 "/tmp/foo_dcdm/sub.tar exists"]
        (Ok (RCodes [0])).
Proof. vm_compute. reflexivity. Qed.

(** * Further properties *)

(** ** [rreplace] *)

Section rsplit_facts.

Implicit Types s sep old new : string.

Lemma rsplit_go_nonempty s sep n : Str.rsplit_go s sep n ≠ [].
Proof.
  destruct n as [|n]; [done|]. cbn [Str.rsplit_go].
  destruct (_ <? 0); [done|]. by intros [_ [=]]%app_eq_nil.
Qed.

Lemma join_snoc sep l x :
  l ≠ [] → Str.join sep (l ++ [x]) = Str.join sep l +:+ sep +:+ x.
Proof.
  induction l as [|y l IH]; [done|]. intros _.
  destruct l as [|z l]; [done|].
  change (Str.join sep ((y :: z :: l) ++ [x]))
    with (y +:+ sep +:+ Str.join sep ((z :: l) ++ [x])).
  rewrite IH by done.
  change (Str.join sep (y :: z :: l)) with (y +:+ sep +:+ Str.join sep (z :: l)).
  by rewrite !str_app_assoc.
Qed.

Lemma str_length_take n s :
  String.length (Str.take n s) = (n `min` String.length s)%nat.
Proof.
  revert s. induction n as [|n IH]; intros [|c s]; simpl; try lia.
  by rewrite IH.
Qed.

Lemma str_drop_add n m s : Str.drop (n + m) s = Str.drop m (Str.drop n s).
Proof.
  revert s. induction n as [|n IH]; intros s; [done|].
  destruct s as [|c s]; [by destruct m|]. apply IH.
Qed.

Lemma occurs_drop old n s : occurs old (Str.drop n s) → occurs old s.
Proof.
  intros H. rewrite <-(str_take_drop n s). by apply occurs_app_r.
Qed.

(** Nothing is left of [old] after the place [rfind] returns. *)
Lemma rfind_rest_absent s old :
  old ≠ "" → 0 ≤ Str.rfind s old →
  ¬ occurs old
      (Str.drop (Z.to_nat (Str.rfind s old) + String.length old) s).
Proof.
  intros Hne Hr Hocc. pose proof (rfind_after s old Hne Hr) as Hafter.
  destruct old as [|c old]; [done|]. simpl String.length in Hocc.
  replace (Z.to_nat (Str.rfind s (String c old)) + S (String.length old))%nat
    with (S (Z.to_nat (Str.rfind s (String c old))) + String.length old)%nat
    in Hocc by lia.
  rewrite str_drop_add in Hocc. apply occurs_drop, rfind_occurs in Hocc. lia.
Qed.

(** What [rsplit] returns: the pieces of [s] between the last [n]
    occurrences of [sep], or between all of them when there are fewer. *)
Lemma rsplit_go_spec s sep n :
  sep ≠ "" →
  let parts := Str.rsplit_go s sep n in
  Str.join sep parts = s
  ∧ (1 ≤ length parts ≤ S n)%nat
  ∧ (∀ i part, (0 < i)%nat → parts !! i = Some part → ¬ occurs sep part)
  ∧ ((length parts < S n)%nat ∨ (String.length s ≤ n)%nat →
     ∀ part, part ∈ parts → ¬ occurs sep part).
Proof.
  intros Hne. revert s. induction n as [|n IH]; intros s; cbn [Str.rsplit_go].
  - simpl. split; [done|]. split; [lia|]. split.
    + intros [|i] part ?; [lia|done].
    + intros [?|Hs] part ->%list_elem_of_singleton; [lia|].
      destruct s; [|simpl in Hs; lia].
      rewrite <-rfind_occurs. destruct sep; [done|simpl; lia].
  - destruct (Z.ltb_spec (Str.rfind s sep) 0) as [Hr|Hr].
    + simpl. split; [done|]. split; [lia|]. split.
      * intros [|i] part ?; [lia|done].
      * intros _ part ->%list_elem_of_singleton. rewrite <-rfind_occurs. lia.
    + unfold Str.slice_to, Str.slice_from, Str.len.
      rewrite !bound_nonneg by lia.
      rewrite Z2Nat.inj_add, Nat2Z.id by lia.
      set (i := Z.to_nat (Str.rfind s sep)).
      destruct (IH (Str.take i s)) as (Hjoin & Hlen & Hrest & Hall).
      pose proof (rfind_rest_absent s sep Hne Hr) as Htail. fold i in Htail.
      split; [|split; [|split]].
      * rewrite join_snoc by apply rsplit_go_nonempty.
        rewrite Hjoin. symmetry. by apply rfind_decompose.
      * rewrite length_app. simpl. lia.
      * intros j part Hj Hpart.
        apply lookup_app_Some in Hpart as [Hpart|[Hge Hpart]].
        -- by apply (Hrest j).
        -- apply list_lookup_singleton_Some in Hpart as [_ <-]. done.
      * intros Hfew part [Hin | ->%list_elem_of_singleton]%elem_of_app; [|done].
        apply Hall; [|done].
        rewrite length_app in Hfew. simpl in Hfew.
        pose proof (str_length_take i s) as Htake.
        pose proof (rfind_decompose s sep Hr) as Hs. fold i in Hs.
        apply (f_equal String.length) in Hs.
        rewrite !str_length_app in Hs.
        assert (0 < String.length sep)%nat by (destruct sep; [done|simpl; lia]).
        lia.
Qed.

End rsplit_facts.

(** X1: [rreplace] does what its docstring says, for a count that fits a
    C [ssize_t].  For a non-empty [old] it cuts [s] at occurrences of
    [old], taken from the right and at most [count] of them (all of them
    when [count] is negative), and joins the pieces with [new]: the pieces
    joined with [old] are [s] again, no piece after the first contains
    [old], and when fewer than [count] cuts were made, or [count] is
    negative, no piece does.  An empty [old] is a [ValueError], and a
    count outside [-2**63 .. 2**63 - 1] is an [OverflowError] whatever
    [old] is. *)
Theorem rreplace_replaces_rightmost (s old new : string) (count : Z) :
  (-9223372036854775808 ≤ count ≤ 9223372036854775807 →
   old ≠ "" →
   ∃ parts,
     Str.rsplit s old count = Ok parts
     ∧ rreplace s old new count = Ok (Str.join new parts)
     ∧ Str.join old parts = s
     ∧ (1 ≤ length parts)%nat
     ∧ (0 ≤ count → (length parts ≤ S (Z.to_nat count))%nat)
     ∧ (∀ i part, (0 < i)%nat → parts !! i = Some part → ¬ occurs old part)
     ∧ (count < 0 ∨ (length parts < S (Z.to_nat count))%nat →
        ∀ part, part ∈ parts → ¬ occurs old part))
  ∧ (-9223372036854775808 ≤ count ≤ 9223372036854775807 →
     rreplace s "" new count = Err ValueError)
  ∧ (count < -9223372036854775808 ∨ 9223372036854775807 < count →
     rreplace s old new count = Err OverflowError).
Proof.
  unfold rreplace, Str.rsplit, Str.ssize_t_min, Str.ssize_t_max.
  split; [|split].
  - intros Hrange Hne.
    destruct (Z.ltb_spec count (-9223372036854775808)); [lia|].
    destruct (Z.ltb_spec 9223372036854775807 count); [lia|]. cbn [orb].
    set (n := if count <? 0 then String.length s else Z.to_nat count).
    destruct (rsplit_go_spec s old n Hne) as (Hjoin & Hlen & Hrest & Hall).
    exists (Str.rsplit_go s old n).
    split; [by destruct old|]. split; [by destruct old|].
    split; [done|]. split; [lia|]. split; [|split; [done|]].
    + intros Hc. subst n. destruct (Z.ltb_spec count 0); lia.
    + intros Hc. apply Hall. subst n.
      destruct (Z.ltb_spec count 0); [right; lia|left; lia].
  - intros Hrange.
    destruct (Z.ltb_spec count (-9223372036854775808)); [lia|].
    by destruct (Z.ltb_spec 9223372036854775807 count); [lia|].
  - intros Hout.
    destruct (Z.ltb_spec count (-9223372036854775808)); [done|].
    by destruct (Z.ltb_spec 9223372036854775807 count); [|lia].
Qed.

Lemma rreplace_replaces_rightmost_witness :
  ∃ parts,
    Str.rsplit "a_xyz/b_xyz/c_xyz/d" "_xyz/" 2 = Ok parts
    ∧ rreplace "a_xyz/b_xyz/c_xyz/d" "_xyz/" "_dcdm/" 2
      = Ok (Str.join "_dcdm/" parts)
    ∧ Str.join "_xyz/" parts = "a_xyz/b_xyz/c_xyz/d"
    ∧ (1 ≤ length parts)%nat
    ∧ (0 ≤ 2 → (length parts ≤ S (Z.to_nat 2))%nat)
    ∧ (∀ i part, (0 < i)%nat → parts !! i = Some part
                 → ¬ occurs "_xyz/" part)
    ∧ (2 < 0 ∨ (length parts < S (Z.to_nat 2))%nat →
       ∀ part, part ∈ parts → ¬ occurs "_xyz/" part).
Proof.
  apply (proj1 (rreplace_replaces_rightmost
                  "a_xyz/b_xyz/c_xyz/d" "_xyz/" "_dcdm/" 2)).
  - lia.
  - discriminate.
Defined.

Example rreplace_counts :
  rreplace "a_xyz/b_xyz/c_xyz/d" "_xyz/" "_dcdm/" 2 = Ok "a_xyz/b_dcdm/c_dcdm/d"
  ∧ rreplace "a_xyz/b_xyz/c_xyz/d" "_xyz/" "_dcdm/" 0 = Ok "a_xyz/b_xyz/c_xyz/d"
  ∧ rreplace "a_xyz/b_xyz/c_xyz/d" "_xyz/" "_dcdm/" (-1)
    = Ok "a_dcdm/b_dcdm/c_dcdm/d"
  ∧ rreplace "aaa" "aa" "b" 5 = Ok "ab"
  ∧ rreplace "abc" "" "x" 1 = Err ValueError
  ∧ rreplace "abc" "b" "x" 9223372036854775808 = Err OverflowError
  ∧ rreplace "abc" "b" "x" (-9223372036854775809) = Err OverflowError
  ∧ rreplace "abc" "b" "x" (-9223372036854775808) = Ok "axc".
Proof. repeat split; reflexivity. Qed.

(** ** [get_dest_path] *)

(** X2: the test [found >= 0] of [get_dest_path] only saves work: for every
    path the function returns what [rreplace] returns, and that is never an
    exception. *)
Theorem get_dest_path_is_rreplace (srcpath : string) :
  get_dest_path srcpath = rreplace srcpath "_xyz/" "_dcdm/" 1
  ∧ ∃ destpath, get_dest_path srcpath = Ok destpath.
Proof.
  split; [|apply get_dest_path_total]. unfold get_dest_path.
  pose proof (rfind_lower srcpath "_xyz/").
  destruct (Z.leb_spec 0 (Str.rfind srcpath "_xyz/")); [done|].
  rewrite rreplace_absent; [done|done|lia].
Qed.

Lemma rfind_app_r a b old :
  0 ≤ Str.rfind b old → Str.rfind (a +:+ b) old = Str.len a + Str.rfind b old.
Proof.
  intros Hb. unfold Str.len. induction a as [|c a IH].
  - rewrite str_app_nil_l. simpl. lia.
  - rewrite str_app_cons. cbn [Str.rfind]. rewrite IH.
    destruct (Z.leb_spec 0 (Z.of_nat (String.length a) + Str.rfind b old));
      simpl String.length; lia.
Qed.

Lemma basename_after_slash a b :
  OsPath.basename (a +:+ "/" +:+ b) = OsPath.basename b.
Proof.
  unfold OsPath.basename, Str.slice_from.
  pose proof (rfind_lower b "/") as Hlow.
  destruct (Z.leb_spec 0 (Str.rfind b "/")) as [Hr|Hr].
  - rewrite <-str_app_assoc, rfind_app_r by done.
    unfold Str.len. rewrite !bound_nonneg by lia.
    replace (Z.to_nat (Z.of_nat (String.length (a +:+ "/")) + Str.rfind b "/" + 1))
      with (String.length (a +:+ "/") + Z.to_nat (Str.rfind b "/" + 1))%nat
      by lia.
    by rewrite str_drop_app_add.
  - rewrite rfind_rightmost; [|done|].
    2:{ rewrite <-rfind_occurs. change (Str.drop 1 ("/" +:+ b)) with b. lia. }
    unfold Str.len. rewrite !bound_nonneg by lia.
    replace (Str.rfind b "/" + 1) with 0 by lia.
    replace (Z.to_nat (Z.of_nat (String.length a) + 1))
      with (String.length a + 1)%nat by lia.
    by rewrite str_drop_app_add.
Qed.

Lemma get_dest_path_cases srcpath :
  ∃ destpath,
    get_dest_path srcpath = Ok destpath
    ∧ OsPath.basename destpath = OsPath.basename srcpath
    ∧ (destpath = srcpath ↔ ¬ occurs "_xyz/" srcpath)
    ∧ (occurs "_xyz/" srcpath →
       String.length destpath = S (String.length srcpath)).
Proof.
  destruct (Z.leb_spec 0 (Str.rfind srcpath "_xyz/")) as [Hr|Hr].
  - apply rfind_occurs in Hr as Hocc.
    destruct (get_dest_path_present _ Hocc) as (a & b & Hp & Hd).
    exists (a +:+ "_dcdm/" +:+ b). split; [done|].
    pose proof (get_dest_path_present_length _ _ Hocc Hd) as Hlen.
    split; [|split; [|done]].
    + rewrite Hp.
      change (a +:+ "_dcdm/" +:+ b) with (a +:+ "_dcdm" +:+ "/" +:+ b).
      change (a +:+ "_xyz/" +:+ b) with (a +:+ "_xyz" +:+ "/" +:+ b).
      by rewrite <-!(str_app_assoc a), !basename_after_slash.
    + split; [|done]. intros Heq. rewrite Heq in Hlen. lia.
  - assert (¬ occurs "_xyz/" srcpath) as Hno by (rewrite <-rfind_occurs; lia).
    exists srcpath. by rewrite get_dest_path_absent.
Qed.

(** X3: the rewrite moves the archive to another directory and keeps its
    name: the destination has the base name of the source, it is the source
    itself exactly when [_xyz/] does not occur in the source, and it is one
    character longer otherwise. *)
Theorem get_dest_path_keeps_basename (srcpath : string) :
  ∃ destpath,
    get_dest_path srcpath = Ok destpath
    ∧ OsPath.basename destpath = OsPath.basename srcpath
    ∧ (destpath = srcpath ↔ ¬ occurs "_xyz/" srcpath)
    ∧ (occurs "_xyz/" srcpath →
       String.length destpath = S (String.length srcpath)).
Proof. apply get_dest_path_cases. Qed.

Example basename_of_source_and_destination :
  OsPath.basename "/tmp/foo_xyz/sub" = "sub"
  ∧ OsPath.basename "/tmp/foo_dcdm/sub" = "sub"
  ∧ OsPath.basename "/tmp/foo_xyz/" = "".
Proof. repeat split; reflexivity. Qed.

(** ** The archive name *)

Lemma rstrip_no_trailing_slash s a : Str.rstrip s "/" ≠ a +:+ "/".
Proof.
  revert a. induction s as [|c s IH]; intros a.
  - by destruct a.
  - cbn [Str.rstrip Str.contains_char].
    destruct (Str.rstrip s "/") as [|c' r] eqn:Hr.
    + rewrite orb_false_r. destruct (Ascii.eqb_spec "/" c) as [Heq|Hc].
      * by destruct a.
      * destruct a as [|? [|? ?]]; [|done..].
        rewrite str_app_nil_l. intros [= ?]. congruence.
    + destruct a as [|c'' a]; [done|]. rewrite str_app_cons.
      intros [= <- H]. by apply (IH a).
Qed.

Lemma repeat_snoc s k : Str.repeat s (S k) = Str.repeat s k +:+ s.
Proof.
  induction k as [|k IH]; [by rewrite str_app_nil_l; apply str_app_nil_r|].
  change (Str.repeat s (S (S k))) with (s +:+ Str.repeat s (S k)).
  rewrite IH at 1. by rewrite <-str_app_assoc.
Qed.

Lemma rstrip_fixed s : (∀ a, s ≠ a +:+ "/") → Str.rstrip s "/" = s.
Proof.
  intros Hs. destruct (rstrip_decompose s) as [[|k] Hk].
  - by rewrite str_app_nil_r in Hk.
  - destruct (Hs (Str.rstrip s "/" +:+ Str.repeat "/" k)).
    by rewrite Hk at 1; rewrite repeat_snoc, str_app_assoc.
Qed.

(** A slash in [a + b] is in [a] or in [b]. *)
Lemma occurs_slash_app a b :
  occurs "/" (a +:+ b) → occurs "/" a ∨ occurs "/" b.
Proof.
  induction a as [|d a IH].
  - rewrite str_app_nil_l. by right.
  - intros (x & y & H). rewrite str_app_cons in H.
    destruct x as [|d' x].
    + rewrite str_app_nil_l, str_app_cons, str_app_nil_l in H.
      injection H as -> _. left. by exists "", a.
    + rewrite str_app_cons in H. injection H as -> H.
      destruct IH as [(u & v & ->)|?]; [by exists x, y| |by right].
      left. by exists (String d' u), v.
Qed.

Lemma basename_without_slash b : ¬ occurs "/" b → OsPath.basename b = b.
Proof.
  intros Hno. unfold OsPath.basename, Str.slice_from.
  by rewrite (rfind_absent _ _ Hno).
Qed.

(** A suffix without a slash stays in the last component. *)
Lemma basename_app s t :
  ¬ occurs "/" t → OsPath.basename (s +:+ t) = OsPath.basename s +:+ t.
Proof.
  intros Ht.
  assert (∀ b, ¬ occurs "/" b →
               OsPath.basename (b +:+ t) = OsPath.basename b +:+ t) as Hflat.
  { intros b Hb. rewrite (basename_without_slash b Hb).
    apply basename_without_slash. by intros [?|?]%occurs_slash_app. }
  destruct (Z.leb_spec 0 (Str.rfind s "/")) as [Hr|Hr].
  - pose proof (rfind_decompose s "/" Hr) as Hs.
    pose proof (rfind_rest_absent s "/" ltac:(done) Hr) as Hb.
    cbv zeta in Hs. rewrite Hs at 1 2.
    rewrite !str_app_assoc, !basename_after_slash. by apply Hflat.
  - apply Hflat. rewrite <-rfind_occurs. lia.
Qed.

(** A path that is not empty and does not end in a slash has a last
    component. *)
Lemma basename_nonempty p :
  p ≠ "" → (∀ a, p ≠ a +:+ "/") → OsPath.basename p ≠ "".
Proof.
  intros Hne Hend.
  destruct (Z.leb_spec 0 (Str.rfind p "/")) as [Hr|Hr].
  - pose proof (rfind_decompose p "/" Hr) as Hp.
    pose proof (rfind_rest_absent p "/" ltac:(done) Hr) as Hb.
    cbv zeta in Hp. rewrite Hp at 1.
    rewrite basename_after_slash, basename_without_slash by done.
    intros Hempty. rewrite Hempty in Hp. by apply Hend in Hp.
  - rewrite basename_without_slash; [done|]. rewrite <-rfind_occurs. lia.
Qed.

(** X4: the archive is named after the directory.  Stripping is done
    once and for all: the stripped path [p] is the selected path without
    the slashes at its end, and stripping it again changes nothing.  When
    the selected path is not made of slashes only, [p] has a last
    component that is not empty, and both the archive whose existence is
    checked and the archive that is written are named by that component
    followed by [.tar].  When it is made of slashes only (the root
    directory), [p] is empty and both archives are the file [.tar]. *)
Theorem archive_is_named_after_the_directory (item : PathItem) :
  let p := Str.rstrip (path item) "/" in
  Str.rstrip p "/" = p
  ∧ (∃ k, path item = p +:+ Str.repeat "/" k)
  ∧ (p = "" ↔ ∃ k, path item = Str.repeat "/" k)
  ∧ ∃ destpath,
      get_dest_path p = Ok destpath
      ∧ (p = "" → archive_path item = ".tar" ∧ destpath +:+ ".tar" = ".tar")
      ∧ (p ≠ "" →
         OsPath.basename p ≠ ""
         ∧ OsPath.basename (archive_path item) = OsPath.basename p +:+ ".tar"
         ∧ OsPath.basename (destpath +:+ ".tar")
           = OsPath.basename p +:+ ".tar").
Proof.
  intros p.
  assert (∀ a, p ≠ a +:+ "/") as Hp by (intros a; apply rstrip_no_trailing_slash).
  assert (¬ occurs "/" ".tar") as Htar by (rewrite <-rfind_occurs; simpl; lia).
  split; [by apply rstrip_fixed|]. split; [apply rstrip_decompose|].
  split.
  { split.
    - intros Hempty. destruct (rstrip_decompose (path item)) as [k Hk].
      exists k. fold p in Hk. by rewrite Hempty, str_app_nil_l in Hk.
    - intros [k Hk]. unfold p. rewrite Hk. apply rstrip_only_slashes. }
  destruct (get_dest_path_cases p) as (d & Hd & Hbase & _).
  exists d. split; [done|]. split.
  - intros Hempty. unfold archive_path. fold p. rewrite Hempty in Hd |- *.
    by injection Hd as <-.
  - intros Hne. split; [by apply basename_nonempty|].
    unfold archive_path. fold p. by rewrite !basename_app, Hbase.
Qed.

Lemma archive_is_named_after_the_directory_witness :
  let item := {| path := "/tmp/foo_xyz/sub//" |} in
  let p := Str.rstrip (path item) "/" in
  Str.rstrip p "/" = p
  ∧ (∃ k, path item = p +:+ Str.repeat "/" k)
  ∧ (p = "" ↔ ∃ k, path item = Str.repeat "/" k)
  ∧ ∃ destpath,
      get_dest_path p = Ok destpath
      ∧ (p = "" → archive_path item = ".tar" ∧ destpath +:+ ".tar" = ".tar")
      ∧ (p ≠ "" →
         OsPath.basename p ≠ ""
         ∧ OsPath.basename (archive_path item) = OsPath.basename p +:+ ".tar"
         ∧ OsPath.basename (destpath +:+ ".tar")
           = OsPath.basename p +:+ ".tar").
Proof.
  apply (archive_is_named_after_the_directory
           {| path := "/tmp/foo_xyz/sub//" |}).
Defined.

(** The two archives of [/tmp/foo_xyz/sub//], and of the root. *)
Example archive_names :
  archive_path {| path := "/tmp/foo_xyz/sub//" |} = "/tmp/foo_xyz/sub.tar"
  ∧ res_map (λ d, d +:+ ".tar")
      (get_dest_path (Str.rstrip "/tmp/foo_xyz/sub//" "/"))
    = Ok "/tmp/foo_dcdm/sub.tar"
  ∧ archive_path {| path := "/" |} = ".tar"
  ∧ res_map (λ d, d +:+ ".tar") (get_dest_path (Str.rstrip "/" "/"))
    = Ok ".tar".
Proof. repeat split; reflexivity. Qed.

(** ** Test mode *)

Lemma tardir_loop_test_calls w cfg prompt sel returncodes h :
  popen_calls (log_of (tardir_loop w cfg prompt true sel returncodes h)) = [].
Proof.
  revert h. induction sel as [|item rest IH]; intros h; [done|].
  rewrite tardir_loop_step.
  destruct (processed w prompt h item).
  - destruct (make_cmdline cfg (path item)); apply popen_calls_ask.
  - by rewrite log_of_prepend, popen_calls_app, popen_calls_ask, IH.
Qed.

Lemma tardir_loop_test_result w cfg prompt sel returncodes h :
  res_of (tardir_loop w cfg prompt true sel returncodes h)
  = match first_processed w prompt h sel with
    | None => Ok (RCodes returncodes)
    | Some item => res_map RCmdline (make_cmdline cfg (path item))
    end.
Proof.
  revert h. induction sel as [|item rest IH]; intros h; [done|].
  rewrite tardir_loop_step. cbn [first_processed].
  destruct (processed w prompt h item) eqn:Hp.
  - by destruct (make_cmdline cfg (path item)).
  - by rewrite res_of_prepend.
Qed.

(** X5: in test mode [tardir_go] starts no process, whatever is selected and
    whatever the user answers. *)
Theorem tardir_go_test_mode_spawns_nothing
    (w : World) (cfg : gmap string string) (sel : list PathItem)
    (prompt : Prompt) :
  popen_calls (log_of (tardir_go w cfg sel prompt true)) = []
  ∧ ∀ cmdline, EPopen cmdline ∉ log_of (tardir_go w cfg sel prompt true).
Proof.
  assert (popen_calls (log_of (tardir_go w cfg sel prompt true)) = []) as H.
  { rewrite tardir_go_unfold. destruct (prompt [] _ _); [|done].
    by rewrite log_of_prepend, popen_calls_app, tardir_loop_test_calls. }
  split; [done|]. intros cmdline Hin%popen_calls_elem.
  rewrite H in Hin. by apply elem_of_nil in Hin.
Qed.

(** X6: a confirmed test-mode run returns the command line of the first
    processed item only (or the exception its formatting raises); later
    items are not looked at.  When no item is processed it returns the
    empty list of return codes, not a command line.  The first processed
    item is the first one that is a directory and whose archive does not
    exist or may be overwritten, the user having seen the confirmation
    and the overwrite questions of the items before it. *)
Theorem tardir_go_test_mode_returns_first_processed
    (w : World) (cfg : gmap string string) (sel : list PathItem)
    (prompt : Prompt) :
  prompt [] (confirm_msg sel) (confirm_title sel) = true →
  res_of (tardir_go w cfg sel prompt true)
  = match first_processed w prompt
            [EPrompt (confirm_msg sel) (confirm_title sel)] sel with
    | None => Ok (RCodes [])
    | Some item => res_map RCmdline (make_cmdline cfg (path item))
    end.
Proof.
  intros Hok. rewrite tardir_go_unfold, Hok, res_of_prepend.
  apply tardir_loop_test_result.
Qed.

Lemma tardir_go_test_mode_returns_first_processed_witness :
  res_of (tardir_go test_world config
            [{| path := "/tmp/notes.txt" |}; {| path := "/tmp/foo_xyz/sub" |};
             {| path := "/tmp/foo" |}] fake_askyesno true)
  = Ok (RCmdline sub_cmdline)
  ∧ res_of (tardir_go test_world config [{| path := "/tmp/notes.txt" |}]
              fake_askyesno true)
    = Ok (RCodes []).
Proof.
  split.
  - rewrite (tardir_go_test_mode_returns_first_processed test_world config
               [{| path := "/tmp/notes.txt" |}; {| path := "/tmp/foo_xyz/sub" |};
                {| path := "/tmp/foo" |}] fake_askyesno); [|reflexivity].
    vm_compute. reflexivity.
  - rewrite (tardir_go_test_mode_returns_first_processed test_world config
               [{| path := "/tmp/notes.txt" |}] fake_askyesno); [|reflexivity].
    vm_compute. reflexivity.
Defined.

(** With a static file system and a user whose answers depend on the
    question only, the first processed item is the first of the
    processed ones. *)
Lemma first_processed_static w prompt h sel :
  (∀ jobs p, isdir w jobs p = isdir w [] p) →
  (∀ jobs p, isfile w jobs p = isfile w [] p) →
  (∀ log msg title, prompt log msg title = prompt [] msg title) →
  first_processed w prompt h sel
  = head (filter (λ item, processed w prompt [] item = true) sel).
Proof.
  intros Hd Hf Hq.
  assert (∀ h item, processed w prompt h item = processed w prompt [] item)
    as Hp.
  { intros h' item. unfold processed.
    by rewrite (Hd (popen_calls h')), (Hf (popen_calls h')), (Hq h'). }
  revert h. induction sel as [|item rest IH]; intros h; [done|].
  cbn [first_processed]. rewrite Hp.
  destruct (processed w prompt [] item) eqn:Hitem.
  - by rewrite filter_cons_True.
  - rewrite filter_cons_False by congruence. apply IH.
Qed.

(** ** What a run asks and spawns *)

(** Dialogs before a process: the process is not among them. *)
Lemma split_after_prompts asks log pre cmdline post :
  popen_calls asks = [] →
  asks ++ log = pre ++ EPopen cmdline :: post →
  ∃ pre2, pre = asks ++ pre2 ∧ log = pre2 ++ EPopen cmdline :: post.
Proof.
  revert pre. induction asks as [|a asks IH]; intros pre Hno H.
  - by exists pre.
  - destruct a as [msg title|c]; [|done].
    destruct pre as [|e pre]; [done|]. injection H as <- H.
    destruct (IH pre Hno H) as (pre2 & -> & ->). by exists pre2.
Qed.

Section spawn_order.

Context (w : World) (cfg : gmap string string) (prompt : Prompt).

(** The turn in which a process of the log was spawned: the item is a
    directory then, the process runs the command line of the item, and
    when the archive of the item exists then, the event before the
    process is the overwrite question, answered with yes. *)
Lemma tardir_loop_spawn_order test_mode sel returncodes h pre cmdline post :
  log_of (tardir_loop w cfg prompt test_mode sel returncodes h)
  = pre ++ EPopen cmdline :: post →
  ∃ item,
    item ∈ sel
    ∧ isdir w (popen_calls (h ++ pre)) (path item) = true
    ∧ make_cmdline cfg (path item) = Ok cmdline
    ∧ (isfile w (popen_calls (h ++ pre)) (archive_path item) = true →
       ∃ pre',
         pre = pre' ++ [EPrompt (overwrite_msg (archive_path item))
                                (overwrite_title (archive_path item))]
         ∧ prompt (h ++ pre') (overwrite_msg (archive_path item))
                              (overwrite_title (archive_path item)) = true).
Proof.
  revert returncodes h pre.
  induction sel as [|item rest IH]; intros rcs h pre.
  - rewrite tardir_loop_nil. by destruct pre.
  - rewrite tardir_loop_step.
    assert (∀ rcs' mid pre2,
      log_of (tardir_loop w cfg prompt test_mode rest rcs' (h ++ mid))
      = pre2 ++ EPopen cmdline :: post →
      ∃ item0,
        item0 ∈ item :: rest
        ∧ isdir w (popen_calls (h ++ mid ++ pre2)) (path item0) = true
        ∧ make_cmdline cfg (path item0) = Ok cmdline
        ∧ (isfile w (popen_calls (h ++ mid ++ pre2)) (archive_path item0)
           = true →
           ∃ pre',
             mid ++ pre2
             = pre' ++ [EPrompt (overwrite_msg (archive_path item0))
                                (overwrite_title (archive_path item0))]
             ∧ prompt (h ++ pre') (overwrite_msg (archive_path item0))
                                  (overwrite_title (archive_path item0))
               = true)) as Hlater.
    { intros rcs' mid pre2 Hlog.
      destruct (IH _ _ _ Hlog) as (item0 & Hin & Hdir & Hmk & Hfile).
      rewrite <-!app_assoc in Hdir, Hfile.
      exists item0. split; [by right|]. split; [done|]. split; [done|].
      intros Hf. destruct (Hfile Hf) as (pre' & -> & Hyes).
      exists (mid ++ pre'). by rewrite <-!app_assoc in Hyes |- *. }
    pose proof (popen_calls_ask w h item) as Hasks.
    destruct (processed w prompt h item) eqn:Hp.
    + assert (
        make_cmdline cfg (path item) = Ok cmdline →
        ∃ item0,
          item0 ∈ item :: rest
          ∧ isdir w (popen_calls (h ++ ask_events w h item)) (path item0)
            = true
          ∧ make_cmdline cfg (path item0) = Ok cmdline
          ∧ (isfile w (popen_calls (h ++ ask_events w h item))
               (archive_path item0) = true →
             ∃ pre',
               ask_events w h item
               = pre' ++ [EPrompt (overwrite_msg (archive_path item0))
                                  (overwrite_title (archive_path item0))]
               ∧ prompt (h ++ pre') (overwrite_msg (archive_path item0))
                                    (overwrite_title (archive_path item0))
                 = true)) as Hhere.
      { intros Hmk. exists item. split; [left|].
        rewrite popen_calls_turn_start. unfold processed in Hp.
        apply andb_true_iff in Hp as [Hdir Hyes].
        split; [done|]. split; [done|]. intros Hfile.
        unfold ask_events. rewrite Hdir, Hfile. cbn [andb].
        rewrite Hfile in Hyes. exists []. by rewrite app_nil_r. }
      destruct (make_cmdline cfg (path item)) as [c|e] eqn:Hc.
      2:{ cbn [log_of]. rewrite <-(app_nil_r (ask_events w h item)).
          intros (pre2 & _ & H)%split_after_prompts; [|done].
          by destruct pre2. }
      destruct test_mode.
      { cbn [log_of]. rewrite <-(app_nil_r (ask_events w h item)).
        intros (pre2 & _ & H)%split_after_prompts; [|done]. by destruct pre2. }
      destruct (popen w (popen_calls h) c) as [rc|e].
      * rewrite log_of_prepend, <-app_assoc.
        intros (pre2 & -> & H)%split_after_prompts; [|done].
        destruct pre2 as [|e pre2].
        -- injection H as -> _. rewrite app_nil_r. by apply Hhere.
        -- injection H as <- H.
           destruct (Hlater _ (ask_events w h item ++ [EPopen c]) pre2 H)
             as (item0 & ? & Hdir & ? & Hfile).
           rewrite <-!app_assoc in Hdir, Hfile.
           exists item0. split; [done|]. split; [exact Hdir|].
           split; [done|exact Hfile].
      * cbn [log_of].
        intros (pre2 & -> & H)%split_after_prompts; [|done].
        destruct pre2 as [|e' pre2].
        -- injection H as -> _. rewrite app_nil_r. by apply Hhere.
        -- injection H as _ H. by destruct pre2.
    + rewrite log_of_prepend.
      intros (pre2 & -> & H)%split_after_prompts; [|done].
      by apply (Hlater _ _ _ H).
Qed.

End spawn_order.

(** X7: no process without the user's agreement, and in this order.
    Whenever a process is in the log of a run, in either mode and whether
    or not the run returns: the log starts with the confirmation, which
    the user answered with yes; the process was spawned for a selected
    item that was a directory when it was spawned, with the command line
    formatted for it; and when the file at the path of the directory
    with [.tar] appended existed then, the event just before the process
    is the overwrite question for that file, which the user answered
    with yes. *)
Theorem tardir_go_spawns_only_with_agreement
    (w : World) (cfg : gmap string string) (sel : list PathItem)
    (prompt : Prompt) (test_mode : bool)
    (pre post : list event) (cmdline : list string) :
  log_of (tardir_go w cfg sel prompt test_mode)
  = pre ++ EPopen cmdline :: post →
  (∃ pre0, pre = EPrompt (confirm_msg sel) (confirm_title sel) :: pre0)
  ∧ prompt [] (confirm_msg sel) (confirm_title sel) = true
  ∧ ∃ item,
      item ∈ sel
      ∧ isdir w (popen_calls pre) (path item) = true
      ∧ make_cmdline cfg (path item) = Ok cmdline
      ∧ (isfile w (popen_calls pre) (Str.rstrip (path item) "/" +:+ ".tar")
         = true →
         ∃ pre',
           pre = pre' ++ [EPrompt ("Overwrite "
                                   +:+ (Str.rstrip (path item) "/" +:+ ".tar")
                                   +:+ " ?")
                                  ((Str.rstrip (path item) "/" +:+ ".tar")
                                   +:+ " exists")]
           ∧ prompt pre'
               ("Overwrite " +:+ (Str.rstrip (path item) "/" +:+ ".tar")
                +:+ " ?")
               ((Str.rstrip (path item) "/" +:+ ".tar") +:+ " exists")
             = true).
Proof.
  rewrite tardir_go_unfold.
  destruct (prompt [] (confirm_msg sel) (confirm_title sel)) eqn:Hok.
  - rewrite log_of_prepend.
    intros (pre2 & -> & H)%split_after_prompts; [|done].
    split; [by exists pre2|]. split; [done|].
    destruct (tardir_loop_spawn_order _ _ _ _ _ _ _ _ _ _ H)
      as (item & Hin & Hdir & Hmk & Hfile).
    exists item. split; [done|]. split; [done|]. split; [done|].
    intros Hf. destruct (Hfile Hf) as (pre' & -> & Hyes).
    by exists ([EPrompt (confirm_msg sel) (confirm_title sel)] ++ pre').
  - cbn [log_of]. intros H. destruct pre as [|e pre]; [done|].
    injection H as _ H. by destruct pre.
Qed.

Lemma tardir_go_spawns_only_with_agreement_witness :
  let sel := [{| path := "/tmp/foo_xyz/sub" |}] in
  let pre := [EPrompt "1 folder selected for TAR; OK?" "tarring 1 folder";
              EPrompt "Overwrite /tmp/foo_xyz/sub.tar ?"
                      "/tmp/foo_xyz/sub.tar exists"] in
  (∃ pre0, pre = EPrompt (confirm_msg sel) (confirm_title sel) :: pre0)
  ∧ fake_askyesno [] (confirm_msg sel) (confirm_title sel) = true
  ∧ ∃ item,
      item ∈ sel
      ∧ isdir archive_world (popen_calls pre) (path item) = true
      ∧ make_cmdline config (path item) = Ok sub_cmdline
      ∧ (isfile archive_world (popen_calls pre)
           (Str.rstrip (path item) "/" +:+ ".tar") = true →
         ∃ pre',
           pre = pre' ++ [EPrompt ("Overwrite "
                                   +:+ (Str.rstrip (path item) "/" +:+ ".tar")
                                   +:+ " ?")
                                  ((Str.rstrip (path item) "/" +:+ ".tar")
                                   +:+ " exists")]
           ∧ fake_askyesno pre'
               ("Overwrite " +:+ (Str.rstrip (path item) "/" +:+ ".tar")
                +:+ " ?")
               ((Str.rstrip (path item) "/" +:+ ".tar") +:+ " exists")
             = true).
Proof.
  apply (tardir_go_spawns_only_with_agreement archive_world config
           [{| path := "/tmp/foo_xyz/sub" |}] fake_askyesno false
           [EPrompt "1 folder selected for TAR; OK?" "tarring 1 folder";
            EPrompt "Overwrite /tmp/foo_xyz/sub.tar ?"
                    "/tmp/foo_xyz/sub.tar exists"]
           [] sub_cmdline).
  vm_compute. reflexivity.
Defined.

(** The run of the witness: the archive exists, the user agrees. *)
Example agreed_overwrite_spawns :
  tardir_go archive_world config [{| path := "/tmp/foo_xyz/sub" |}]
    fake_askyesno false
  = Run [EPrompt "1 folder selected for TAR; OK?" "tarring 1 folder";
         EPrompt "Overwrite /tmp/foo_xyz/sub.tar ?"
                 "/tmp/foo_xyz/sub.tar exists";
         EPopen sub_cmdline]
        (Ok (RCodes [0])).
Proof. vm_compute. reflexivity. Qed.

(** A user who declines the overwrite keeps the archive: nothing is
    spawned for that directory. *)
Example declined_overwrite_spawns_nothing :
  tardir_go archive_world config [{| path := "/tmp/foo_xyz/sub" |}]
    keep_archives false
  = Run [EPrompt "1 folder selected for TAR; OK?" "tarring 1 folder";
         EPrompt "Overwrite /tmp/foo_xyz/sub.tar ?"
                 "/tmp/foo_xyz/sub.tar exists"]
        (Ok (RCodes [])).
Proof. vm_compute. reflexivity. Qed.

(** X8: in every run, whatever its mode and its outcome, the first event is
    the confirmation dialog, and the events after it are an initial part
    of the turns of the selected items, in the order of the selection.
    The turn of an item is decided by the log of the turns before it:
    the overwrite question when the item is a directory whose archive
    exists then, followed by its process when it is processed. *)
Theorem tardir_go_log_follows_selection
    (w : World) (cfg : gmap string string) (sel : list PathItem)
    (prompt : Prompt) (test_mode : bool) :
  ∃ events turns,
    log_of (tardir_go w cfg sel prompt test_mode)
    = EPrompt (confirm_msg sel) (confirm_title sel) :: events
    ∧ events `prefix_of` concat turns
    ∧ length turns = length sel
    ∧ ∀ i item, sel !! i = Some item →
        let h := EPrompt (confirm_msg sel) (confirm_title sel)
                 :: concat (take i turns) in
        turns !! i
        = Some (ask_events w h item
                ++ (if processed w prompt h item
                    then match make_cmdline cfg (path item) with
                         | Ok cmdline => [EPopen cmdline]
                         | Err _ => []
                         end
                    else [])).
Proof.
  destruct (turns_by_index w cfg prompt
              [EPrompt (confirm_msg sel) (confirm_title sel)] sel)
    as [Hlen Hturn].
  rewrite tardir_go_unfold. destruct (prompt [] _ _).
  - rewrite log_of_prepend. eexists _, _. split; [done|].
    split; [apply tardir_loop_log_prefix|]. split; [done|].
    intros i item Hi. by rewrite (Hturn i item Hi).
  - exists [], (turns w cfg prompt
                  [EPrompt (confirm_msg sel) (confirm_title sel)] sel).
    split; [done|]. split; [apply prefix_nil|]. split; [done|].
    intros i item Hi. by rewrite (Hturn i item Hi).
Qed.

(** ** The menu and the action *)

Lemma menu_enabled_existsb w sel :
  menu_enabled w sel = existsb (λ item, isdir w [] (path item)) sel.
Proof.
  unfold menu_enabled.
  assert (∀ acc,
    foldl (λ is_enabled item,
             if isdir w [] (path item) then true else is_enabled)
          acc sel
    = acc || existsb (λ item, isdir w [] (path item)) sel) as H.
  { induction sel as [|x sel IH]; intros acc; simpl.
    - by rewrite orb_false_r.
    - rewrite IH. by destruct (isdir w [] (path x)), acc. }
  apply H.
Qed.

(** X9: the menu state looks at the items one by one: a selection is enabled
    when one of its parts is, and the order of the selected items does not
    matter. *)
Theorem menu_enabled_order_free (w : World) (sel sel' : list PathItem) :
  menu_enabled w (sel ++ sel') = menu_enabled w sel || menu_enabled w sel'
  ∧ (sel ≡ₚ sel' → menu_enabled w sel = menu_enabled w sel').
Proof.
  rewrite !menu_enabled_existsb. split; [apply existsb_app|].
  induction 1 as [|x l l' _ IH|x y l|l l' l'' _ IH1 _ IH2]; simpl.
  - done.
  - by rewrite IH.
  - by destruct (isdir w [] (path x)), (isdir w [] (path y)).
  - by rewrite IH1.
Qed.

Lemma menu_enabled_order_free_witness :
  menu_enabled test_world
    ([{| path := "/tmp/notes.txt" |}] ++ [{| path := "/tmp/foo" |}])
  = menu_enabled test_world [{| path := "/tmp/notes.txt" |}]
    || menu_enabled test_world [{| path := "/tmp/foo" |}]
  ∧ menu_enabled test_world
      [{| path := "/tmp/notes.txt" |}; {| path := "/tmp/foo" |}]
    = menu_enabled test_world
        [{| path := "/tmp/foo" |}; {| path := "/tmp/notes.txt" |}].
Proof.
  split.
  - apply (menu_enabled_order_free test_world
             [{| path := "/tmp/notes.txt" |}] [{| path := "/tmp/foo" |}]).
  - apply (menu_enabled_order_free test_world
             [{| path := "/tmp/notes.txt" |}; {| path := "/tmp/foo" |}]
             [{| path := "/tmp/foo" |}; {| path := "/tmp/notes.txt" |}]).
    apply perm_swap.
Defined.

Lemma tardir_loop_no_directory w cfg prompt test_mode sel returncodes h :
  existsb (λ item, isdir w [] (path item)) sel = false →
  popen_calls h = [] →
  tardir_loop w cfg prompt test_mode sel returncodes h
  = Run [] (Ok (RCodes returncodes)).
Proof.
  revert h. induction sel as [|item rest IH]; intros h; [done|].
  simpl existsb. intros [Hd Hrest]%orb_false_iff Hh.
  rewrite tardir_loop_step. unfold processed, ask_events. rewrite Hh, Hd.
  cbn [andb]. rewrite app_nil_r, prepend_nil. by apply IH.
Qed.

(** X10: the action the hook registers is consistent with its own menu state:
    on a selection for which [isEnabled] answers false, [execute] asks the
    confirmation and, when the user confirms, does nothing more and
    returns the empty list, in normal mode and in test mode. *)
Theorem disabled_action_does_nothing
    (menu : Menu) (action : Action)
    (w : World) (cfg : gmap string string) (sel : list PathItem)
    (prompt : Prompt) (test_mode : bool) :
  menu ∈ get_mediahub_files_custom_ui_actions →
  action ∈ actions menu →
  isEnabled action w sel = false →
  prompt [] (confirm_msg sel) (confirm_title sel) = true →
  execute action w cfg sel prompt test_mode
  = Run [EPrompt (confirm_msg sel) (confirm_title sel)] (Ok (RCodes [])).
Proof.
  intros ->%list_elem_of_singleton ->%list_elem_of_singleton Hoff Hok.
  cbn [execute isEnabled] in *. rewrite menu_enabled_existsb in Hoff.
  by rewrite tardir_go_unfold, Hok, tardir_loop_no_directory.
Qed.

Lemma disabled_action_does_nothing_witness :
  tardir_go test_world config
    [{| path := "/tmp/notes.txt" |}; {| path := "/tmp/clip.mov" |}]
    fake_askyesno false
  = Run [EPrompt "2 folders selected for TAR; OK?" "tarring 2 folders"]
        (Ok (RCodes [])).
Proof.
  apply (disabled_action_does_nothing
           {| menu_name := "Directory Tools";
              actions := [{| action_name := "TAR Directory";
                             isEnabled := menu_enabled;
                             execute := tardir_go |}] |}
           {| action_name := "TAR Directory";
              isEnabled := menu_enabled;
              execute := tardir_go |}
           test_world config
           [{| path := "/tmp/notes.txt" |}; {| path := "/tmp/clip.mov" |}]
           fake_askyesno false).
  - left.
  - left.
  - reflexivity.
  - reflexivity.
Defined.

(** ** Exceptions *)

Ltac format_missing H :=
  cbv [Str.format Str.format_go Str.snoc Ascii.eqb Bool.eqb res_map res_bind];
  by rewrite H.

Lemma format_cmdjob_missing (vars : gmap string string) :
  vars !! "CMDJOB" = None →
  Str.format "{CMDJOB}" [] vars = Err (KeyError "CMDJOB").
Proof. intros H. format_missing H. Qed.

Lemma format_manager_missing (vars : gmap string string) :
  vars !! "BBMANAGER" = None →
  Str.format "-manager:{BBMANAGER}" [] vars = Err (KeyError "BBMANAGER").
Proof. intros H. format_missing H. Qed.

Lemma format_group_missing (vars : gmap string string) :
  vars !! "BBGROUP" = None →
  Str.format "-group:{BBGROUP}" [] vars = Err (KeyError "BBGROUP").
Proof. intros H. format_missing H. Qed.

Lemma format_priority_missing (vars : gmap string string) :
  vars !! "PRIORITY" = None →
  Str.format "-priority:{PRIORITY}" [] vars = Err (KeyError "PRIORITY").
Proof. intros H. format_missing H. Qed.

Lemma make_cmdline_missing cfg item_path k :
  first_missing cfg = Some k →
  make_cmdline cfg item_path = Err (KeyError k).
Proof.
  intros Hk. unfold make_cmdline.
  destruct (get_dest_path_total (Str.rstrip item_path "/")) as [dest ->].
  cbv beta zeta iota delta [res_bind].
  match goal with |- format_each _ ?v = _ => set (vars := v) end.
  destruct (vars_lookup cfg dest (OsPath.basename (Str.rstrip item_path "/"))
              (OsPath.basename (Str.rstrip item_path "/") +:+ " DCDM")
              (OsPath.dirname (Str.rstrip item_path "/")))
    as (_ & _ & _ & _ & Hc & Hm & Hg & Hp).
  fold vars in Hc, Hm, Hg, Hp. clearbody vars.
  unfold first_missing in Hk. cbn [List.find] in Hk.
  unfold cmdline_template. cbn [format_each].
  destruct (cfg !! "CMDJOB") as [cmdjob|] eqn:H1.
  2:{ rewrite bool_decide_eq_true_2 in Hk by done. injection Hk as <-.
      by rewrite (format_cmdjob_missing _ Hc). }
  rewrite bool_decide_eq_false_2 in Hk by done.
  rewrite (format_cmdjob _ _ Hc). cbn [res_bind].
  destruct (cfg !! "BBMANAGER") as [manager|] eqn:H2.
  2:{ rewrite bool_decide_eq_true_2 in Hk by done. injection Hk as <-.
      by rewrite (format_manager_missing _ Hm). }
  rewrite bool_decide_eq_false_2 in Hk by done.
  rewrite (format_manager _ _ Hm). cbn [res_bind].
  destruct (cfg !! "BBGROUP") as [group|] eqn:H3.
  2:{ rewrite bool_decide_eq_true_2 in Hk by done. injection Hk as <-.
      by rewrite (format_group_missing _ Hg). }
  rewrite bool_decide_eq_false_2 in Hk by done.
  rewrite (format_group _ _ Hg). cbn [res_bind].
  destruct (cfg !! "PRIORITY") as [priority|] eqn:H4.
  2:{ rewrite bool_decide_eq_true_2 in Hk by done. injection Hk as <-.
      by rewrite (format_priority_missing _ Hp). }
  by rewrite bool_decide_eq_false_2 in Hk by done.
Qed.

Lemma tardir_loop_raises w cfg prompt test_mode sel returncodes h e :
  (∀ item, item ∈ sel → make_cmdline cfg (path item) = Err e) →
  res_of (tardir_loop w cfg prompt test_mode sel returncodes h)
  = match first_processed w prompt h sel with
    | None => Ok (RCodes returncodes)
    | Some _ => Err e
    end.
Proof.
  revert h. induction sel as [|item rest IH]; intros h Hall; [done|].
  rewrite tardir_loop_step. cbn [first_processed].
  destruct (processed w prompt h item) eqn:Hp.
  - rewrite (Hall item) by left. done.
  - rewrite res_of_prepend. apply IH. intros item' ?. apply Hall. by right.
Qed.

(** X11: a configuration without one of the keys [CMDJOB], [BBMANAGER],
    [BBGROUP], [PRIORITY] makes the action useless: no run spawns a
    process, and a confirmed run with an item to process raises the
    [KeyError] of the first missing key, in the order of the template. *)
Theorem tardir_go_missing_config_key
    (w : World) (cfg : gmap string string) (sel : list PathItem)
    (prompt : Prompt) (test_mode : bool) (k : string) :
  first_missing cfg = Some k →
  popen_calls (log_of (tardir_go w cfg sel prompt test_mode)) = []
  ∧ (prompt [] (confirm_msg sel) (confirm_title sel) = true →
     first_processed w prompt
       [EPrompt (confirm_msg sel) (confirm_title sel)] sel ≠ None →
     res_of (tardir_go w cfg sel prompt test_mode) = Err (KeyError k)).
Proof.
  intros Hk. split.
  - apply elem_of_nil_inv. intros c Hin%popen_calls_elem.
    apply tardir_go_popen in Hin as (item & _ & Hc).
    by rewrite (make_cmdline_missing _ _ _ Hk) in Hc.
  - intros Hok Hjobs. rewrite tardir_go_unfold, Hok, res_of_prepend.
    rewrite (tardir_loop_raises _ _ _ _ _ _ _ (KeyError k)).
    + by destruct (first_processed _ _ _ sel).
    + intros item _. by apply make_cmdline_missing.
Qed.

Lemma tardir_go_missing_config_key_witness :
  popen_calls (log_of (tardir_go test_world (delete "BBGROUP" config)
                         [{| path := "/tmp/foo" |}] fake_askyesno false)) = []
  ∧ (fake_askyesno [] (confirm_msg [{| path := "/tmp/foo" |}])
                      (confirm_title [{| path := "/tmp/foo" |}]) = true →
     first_processed test_world fake_askyesno
       [EPrompt (confirm_msg [{| path := "/tmp/foo" |}])
                (confirm_title [{| path := "/tmp/foo" |}])]
       [{| path := "/tmp/foo" |}] ≠ None →
     res_of (tardir_go test_world (delete "BBGROUP" config)
               [{| path := "/tmp/foo" |}] fake_askyesno false)
     = Err (KeyError "BBGROUP")).
Proof.
  apply (tardir_go_missing_config_key test_world (delete "BBGROUP" config)
           [{| path := "/tmp/foo" |}] fake_askyesno false "BBGROUP").
  vm_compute. reflexivity.
Defined.

Example missing_group_raises :
  tardir_go test_world (delete "BBGROUP" config) [{| path := "/tmp/foo" |}]
    fake_askyesno false
  = Run [EPrompt "1 folder selected for TAR; OK?" "tarring 1 folder"]
        (Err (KeyError "BBGROUP")).
Proof. vm_compute. reflexivity. Qed.

Lemma turns_app w cfg prompt h before rest :
  turns w cfg prompt h (before ++ rest)
  = turns w cfg prompt h before
    ++ turns w cfg prompt (h ++ concat (turns w cfg prompt h before)) rest.
Proof.
  revert h. induction before as [|item before IH]; intros h.
  - simpl. by rewrite app_nil_r.
  - cbn [app turns concat]. by rewrite IH, app_assoc.
Qed.

Lemma log_before_app w cfg prompt before rest i :
  (i ≤ length before)%nat →
  log_before w cfg prompt (before ++ rest) i
  = [EPrompt (confirm_msg (before ++ rest)) (confirm_title (before ++ rest))]
    ++ concat (take i (turns w cfg prompt
         [EPrompt (confirm_msg (before ++ rest))
                  (confirm_title (before ++ rest))] before)).
Proof.
  intros Hi. unfold log_before. rewrite turns_app, take_app_le; [done|].
  by rewrite turns_length.
Qed.

Lemma tardir_loop_app_returns w cfg prompt before h :
  (∀ i item, before !! i = Some item →
     let h' := h ++ concat (take i (turns w cfg prompt h before)) in
     processed w prompt h' item = true →
     ∃ cmdline rc, make_cmdline cfg (path item) = Ok cmdline
                   ∧ popen w (popen_calls h') cmdline = Ok rc) →
  ∃ codes, ∀ rest returncodes,
    tardir_loop w cfg prompt false (before ++ rest) returncodes h
    = prepend (concat (turns w cfg prompt h before))
        (tardir_loop w cfg prompt false rest (returncodes ++ codes)
           (h ++ concat (turns w cfg prompt h before))).
Proof.
  revert h. induction before as [|item before IH]; intros h Hall.
  - exists []. intros rest rcs. simpl. by rewrite !app_nil_r, prepend_nil.
  - pose proof (Hall 0%nat item eq_refl) as Hitem. cbv zeta in Hitem.
    cbn [take concat] in Hitem. rewrite app_nil_r in Hitem.
    assert (∀ turn, turn = item_events w cfg prompt h item →
      ∃ codes, ∀ rest rcs,
        tardir_loop w cfg prompt false (before ++ rest) rcs (h ++ turn)
        = prepend (concat (turns w cfg prompt (h ++ turn) before))
            (tardir_loop w cfg prompt false rest (rcs ++ codes)
               ((h ++ turn)
                ++ concat (turns w cfg prompt (h ++ turn) before))))
      as Hrest.
    { intros turn ->. apply IH. intros i item' Hi.
      specialize (Hall (S i) item' Hi). cbv zeta in Hall |- *.
      cbn [turns take concat] in Hall. by rewrite app_assoc in Hall. }
    destruct (processed w prompt h item) eqn:Hp.
    + destruct Hitem as (c & rc & Hc & Hrc); [done|].
      destruct (Hrest _ eq_refl) as [codes Hcodes].
      exists (rc :: codes). intros rest rcs.
      rewrite <-app_comm_cons, tardir_loop_step, Hp, Hc, Hrc.
      cbn [turns concat]. rewrite (item_events_processed _ _ _ _ _ _ Hp Hc) in Hcodes |- *.
      rewrite Hcodes, prepend_prepend, <-(app_assoc rcs [rc]).
      by rewrite <-!app_assoc.
    + destruct (Hrest _ eq_refl) as [codes Hcodes].
      exists codes. intros rest rcs.
      rewrite <-app_comm_cons, tardir_loop_step, Hp.
      cbn [turns concat]. rewrite (item_events_skipped _ _ _ _ _ Hp) in Hcodes |- *.
      rewrite Hcodes, prepend_prepend. by rewrite <-!app_assoc.
Qed.

(** X12: a job submission that cannot be started ends the run: when the items
    before [item] went through and [Popen] raises for [item], [tardir_go]
    raises that exception; the log ends with the process of [item], so
    nothing is asked or spawned for the items after it, and the return
    codes collected so far are not returned. *)
Theorem tardir_go_popen_failure_aborts
    (w : World) (cfg : gmap string string) (prompt : Prompt)
    (before after : list PathItem) (item : PathItem)
    (cmdline : list string) (e : exn) :
  prompt [] (confirm_msg (before ++ item :: after))
            (confirm_title (before ++ item :: after)) = true →
  (∀ i item', before !! i = Some item' →
     let h' := log_before w cfg prompt (before ++ item :: after) i in
     processed w prompt h' item' = true →
     ∃ cmdline' rc, make_cmdline cfg (path item') = Ok cmdline'
                    ∧ popen w (popen_calls h') cmdline' = Ok rc) →
  processed w prompt
    (log_before w cfg prompt (before ++ item :: after) (length before)) item
  = true →
  make_cmdline cfg (path item) = Ok cmdline →
  popen w (popen_calls (log_before w cfg prompt (before ++ item :: after)
                          (length before))) cmdline = Err e →
  tardir_go w cfg (before ++ item :: after) prompt false
  = Run (log_before w cfg prompt (before ++ item :: after) (length before)
         ++ ask_events w (log_before w cfg prompt (before ++ item :: after)
                            (length before)) item
         ++ [EPopen cmdline])
        (Err e).
Proof.
  intros Hok Hbefore.
  rewrite log_before_app by done.
  set (start := [EPrompt (confirm_msg (before ++ item :: after))
                         (confirm_title (before ++ item :: after))]).
  rewrite firstn_all2 by by rewrite turns_length.
  intros Hp Hc He.
  destruct (tardir_loop_app_returns w cfg prompt before start) as [codes H].
  { intros i item' Hi. specialize (Hbefore i item' Hi). cbv zeta in Hbefore.
    rewrite log_before_app in Hbefore; [done|].
    apply lookup_lt_Some in Hi. lia. }
  rewrite tardir_go_unfold, Hok. fold start.
  rewrite H, tardir_loop_step, Hp, Hc, He. cbn [prepend].
  by rewrite <-!app_assoc.
Qed.

Lemma tardir_go_popen_failure_aborts_witness :
  let sel := [{| path := "/tmp/notes.txt" |}]
             ++ {| path := "/tmp/foo_xyz/sub" |} :: [{| path := "/tmp/foo" |}] in
  let h := log_before no_cmdjob_world config fake_askyesno sel
             (length [{| path := "/tmp/notes.txt" |}]) in
  tardir_go no_cmdjob_world config sel fake_askyesno false
  = Run (h ++ ask_events no_cmdjob_world h {| path := "/tmp/foo_xyz/sub" |}
           ++ [EPopen sub_cmdline])
        (Err OSError).
Proof.
  apply (tardir_go_popen_failure_aborts no_cmdjob_world config fake_askyesno
           [{| path := "/tmp/notes.txt" |}] [{| path := "/tmp/foo" |}]
           {| path := "/tmp/foo_xyz/sub" |} sub_cmdline OSError).
  - reflexivity.
  - intros [|i] item' Hi; [|done]. injection Hi as <-.
    vm_compute. discriminate.
  - reflexivity.
  - vm_compute. reflexivity.
  - reflexivity.
Defined.

Example popen_failure_log :
  tardir_go no_cmdjob_world config
    [{| path := "/tmp/notes.txt" |}; {| path := "/tmp/foo_xyz/sub" |};
     {| path := "/tmp/foo" |}] fake_askyesno false
  = Run [EPrompt "3 folders selected for TAR; OK?" "tarring 3 folders";
         EPopen sub_cmdline]
        (Err OSError).
Proof. vm_compute. reflexivity. Qed.

(** ** The default dialog *)

Lemma tardir_loop_yes_to_all w cfg prompt sel returncodes h log r :
  (∀ log msg title, prompt log msg title = true) →
  (∀ jobs p, isdir w jobs p = isdir w [] p) →
  tardir_loop w cfg prompt false sel returncodes h = Run log (Ok r) →
  length (popen_calls log)
  = length (filter (λ item, isdir w [] (path item) = true) sel).
Proof.
  intros Hyes Hstatic. revert returncodes h log.
  induction sel as [|item rest IH]; intros rcs h log.
  - rewrite tardir_loop_nil. by intros [= <- _].
  - rewrite tardir_loop_step.
    assert (processed w prompt h item = isdir w [] (path item)) as ->.
    { unfold processed. by rewrite Hyes, orb_true_r, andb_true_r, Hstatic. }
    destruct (isdir w [] (path item)) eqn:Hd.
    + rewrite filter_cons_True by done.
      destruct (make_cmdline cfg (path item)) as [c|e]; [|done].
      destruct (popen w (popen_calls h) c) as [rc|e]; [|done].
      destruct (tardir_loop _ _ _ _ _ _ _) as [log' r'] eqn:Hrest.
      unfold prepend. intros [= <- ->]. apply IH in Hrest.
      rewrite !popen_calls_app, popen_calls_ask. simpl. by rewrite Hrest.
    + rewrite filter_cons_False by congruence.
      destruct (tardir_loop _ _ _ _ _ _ _) as [log' r'] eqn:Hrest.
      unfold prepend. intros [= <- ->]. apply IH in Hrest.
      by rewrite popen_calls_app, popen_calls_ask.
Qed.

(** X13: with the dialog of [ask_yesno], a user who closes every box with Yes
    gets one job for every selected directory, existing archives
    included: when the jobs leave the directories as they are, a run that
    returns has spawned as many processes, and returns as many return
    codes, as there are directories in the selection. *)
Theorem yes_to_all_archives_every_directory
    (exec : list event → string → string → StandardButton)
    (w : World) (cfg : gmap string string) (sel : list PathItem)
    (r : result) :
  (∀ log title text, exec log title text = Yes) →
  (∀ jobs p, isdir w jobs p = isdir w [] p) →
  res_of (tardir_go w cfg sel (ask_yesno exec) false) = Ok r →
  ∃ codes,
    r = RCodes codes
    ∧ length codes
      = length (filter (λ item, isdir w [] (path item) = true) sel)
    ∧ length (popen_calls (log_of (tardir_go w cfg sel (ask_yesno exec) false)))
      = length codes.
Proof.
  intros Hyes Hstatic Hr.
  assert (∀ log msg title, ask_yesno exec log msg title = true) as Hprompt.
  { intros log msg title. unfold ask_yesno. by rewrite Hyes. }
  destruct (tardir_go_returns w cfg sel (ask_yesno exec) r (Hprompt _ _ _) Hr)
    as (_ & codes & -> & Hlen & _).
  exists codes. split; [done|]. split; [|done]. rewrite Hlen.
  rewrite tardir_go_unfold, Hprompt in Hr |- *.
  rewrite res_of_prepend in Hr. rewrite log_of_prepend, popen_calls_app.
  destruct (tardir_loop _ _ _ _ _ _ _) as [log r'] eqn:Hloop.
  simpl in Hr. subst r'.
  by apply (tardir_loop_yes_to_all _ _ _ _ _ _ _ _ Hprompt Hstatic) in Hloop.
Qed.

Lemma yes_to_all_archives_every_directory_witness :
  ∃ codes,
    RCodes [0; 0] = RCodes codes
    ∧ length codes
      = length (filter (λ item, isdir archive_world [] (path item) = true)
                  [{| path := "/tmp/foo_xyz/sub" |}; {| path := "/tmp/x" |};
                   {| path := "/tmp/foo_xyz/sub/" |}])
    ∧ length (popen_calls (log_of (tardir_go archive_world config
                  [{| path := "/tmp/foo_xyz/sub" |}; {| path := "/tmp/x" |};
                   {| path := "/tmp/foo_xyz/sub/" |}]
                  (ask_yesno (λ log title text, Yes)) false)))
      = length codes.
Proof.
  apply (yes_to_all_archives_every_directory (λ log title text, Yes)
           archive_world config
           [{| path := "/tmp/foo_xyz/sub" |}; {| path := "/tmp/x" |};
            {| path := "/tmp/foo_xyz/sub/" |}] (RCodes [0; 0])).
  - reflexivity.
  - reflexivity.
  - vm_compute. reflexivity.
Defined.

(** ** What [tardir_go] returns *)

Lemma tardir_loop_normal_result w cfg prompt sel returncodes h r :
  res_of (tardir_loop w cfg prompt false sel returncodes h) = Ok r →
  ∃ codes, r = RCodes codes.
Proof.
  destruct (tardir_loop w cfg prompt false sel returncodes h)
    as [log r'] eqn:H.
  simpl. intros ->.
  apply tardir_loop_returns in H as (_ & codes & -> & _). by eexists.
Qed.

(** X14: the kind of value [tardir_go] returns depends on the answer to the
    confirmation and on the mode: [None] exactly when the user cancels;
    otherwise a list of return codes in normal mode, and in test mode
    either a command line or, when no item was processed, the empty
    list. *)
Theorem tardir_go_result_kinds
    (w : World) (cfg : gmap string string) (sel : list PathItem)
    (prompt : Prompt) (test_mode : bool) (r : result) :
  res_of (tardir_go w cfg sel prompt test_mode) = Ok r →
  (r = RNone ↔ prompt [] (confirm_msg sel) (confirm_title sel) = false)
  ∧ (r ≠ RNone → test_mode = false → ∃ codes, r = RCodes codes)
  ∧ (r ≠ RNone → test_mode = true →
     r = RCodes [] ∨ ∃ cmdline, r = RCmdline cmdline).
Proof.
  rewrite tardir_go_unfold.
  destruct (prompt [] (confirm_msg sel) (confirm_title sel)) eqn:Hok.
  - rewrite res_of_prepend. intros Hr.
    assert (r ≠ RNone) as Hnone.
    { destruct test_mode.
      - rewrite tardir_loop_test_result in Hr.
        destruct (first_processed _ _ _ sel); [|by injection Hr as <-].
        destruct (make_cmdline _ _); [by injection Hr as <-|done].
      - by apply tardir_loop_normal_result in Hr as [codes ->]. }
    split; [done|]. split.
    + intros _ ->. by apply tardir_loop_normal_result in Hr.
    + intros _ ->. rewrite tardir_loop_test_result in Hr.
      destruct (first_processed _ _ _ sel); [|left; by injection Hr as <-].
      destruct (make_cmdline _ _); [|done].
      right. injection Hr as <-. by eexists.
  - intros [= <-]. done.
Qed.

Lemma tardir_go_result_kinds_witness :
  (RCodes [0] = RNone
   ↔ fake_askyesno [] (confirm_msg [{| path := "/tmp/foo" |}])
                      (confirm_title [{| path := "/tmp/foo" |}]) = false)
  ∧ (RCodes [0] ≠ RNone → false = false → ∃ codes, RCodes [0] = RCodes codes)
  ∧ (RCodes [0] ≠ RNone → false = true →
     RCodes [0] = RCodes [] ∨ ∃ cmdline, RCodes [0] = RCmdline cmdline).
Proof.
  apply (tardir_go_result_kinds test_world config [{| path := "/tmp/foo" |}]
           fake_askyesno false (RCodes [0])).
  vm_compute. reflexivity.
Defined.

(** ** The return codes *)

(** X15: the list a confirmed run in normal mode returns is the list of
    the return codes of its jobs: it has one code for every process in the
    log, in the order of the log, and each code is what waiting for that
    process returned, the process having been started after the ones
    before it in the log had ended. *)
Theorem tardir_go_returns_the_codes_of_its_jobs
    (w : World) (cfg : gmap string string) (sel : list PathItem)
    (prompt : Prompt) (r : result) :
  prompt [] (confirm_msg sel) (confirm_title sel) = true →
  res_of (tardir_go w cfg sel prompt false) = Ok r →
  let calls := popen_calls (log_of (tardir_go w cfg sel prompt false)) in
  ∃ codes,
    r = RCodes codes
    ∧ length codes = length calls
    ∧ ∀ j cmdline, calls !! j = Some cmdline →
        ∃ rc, codes !! j = Some rc
          ∧ popen w (take j calls) cmdline = Ok rc.
Proof.
  intros Hok Hr calls.
  by destruct (tardir_go_returns w cfg sel prompt r Hok Hr) as [_ H].
Qed.

Lemma tardir_go_returns_the_codes_of_its_jobs_witness :
  let w := {| isdir jobs p := true;
              isfile jobs p := false;
              popen jobs cmdline := Ok (Z.of_nat (length jobs) * 6) |} in
  let sel := [{| path := "/tmp/foo" |}; {| path := "/tmp/foo_xyz/sub" |}] in
  let calls := popen_calls (log_of (tardir_go w config sel fake_askyesno
                                      false)) in
  ∃ codes,
    RCodes [0; 6] = RCodes codes
    ∧ length codes = length calls
    ∧ ∀ j cmdline, calls !! j = Some cmdline →
        ∃ rc, codes !! j = Some rc
          ∧ popen w (take j calls) cmdline = Ok rc.
Proof.
  apply (tardir_go_returns_the_codes_of_its_jobs
           {| isdir jobs p := true;
              isfile jobs p := false;
              popen jobs cmdline := Ok (Z.of_nat (length jobs) * 6) |}
           config
           [{| path := "/tmp/foo" |}; {| path := "/tmp/foo_xyz/sub" |}]
           fake_askyesno (RCodes [0; 6])).
  - reflexivity.
  - vm_compute. reflexivity.
Defined.
